(** * jira.exceptions: redaction of secrets in error reports

    A shallow embedding of [src/jira/exceptions.py]: the header sanitizer
    [_sanitize_headers], the body sanitizer [_sanitize_body] with its nested
    [scrub], and the rendering [JIRAError.__str__].

    Conventions of the embedding.
    - A Python [str] is a [string]; each character is read as the code point
      of the same number (0..255).  [str.lower], [\s] and [re.I] are the
      Python ones restricted to these code points.
    - Mapping objects (a [dict], the headers of a response) live in a heap
      and are passed by reference, as in Python; a dict is an association
      list in insertion order.
    - [json.loads] and [json.dumps] belong to the Python library.  The
      general theorems take them as parameters [loads] and [dumps]; the
      concrete examples use the decoder and encoder of module [Json].
    - The file system and the name generator of [tempfile] are an explicit
      state; an exception is a value of [result]. *)

From Stdlib Require Import String Ascii ZArith List Bool Lia DecimalString.
From stdpp Require Import gmap strings list.

Open Scope string_scope.
Open Scope nat_scope.

Set Warnings "-register-all".

(** [simpl] computes the concatenation of strings. *)
#[local] Arguments String.append !_ _ / : simpl nomatch.

(** ** Characters and strings *)

Module Str.

Definition code (c : ascii) : nat := nat_of_ascii c.

Definition between (lo hi : nat) (c : ascii) : bool :=
  (lo <=? code c)%nat && (code c <=? hi)%nat.

(** [str.lower] on one code point below 256: A-Z, and the upper-case
    letters 0xC0-0xDE except the multiplication sign 0xD7. *)
Definition lower_char (c : ascii) : ascii :=
  if between 65 90 c || (between 192 222 c && negb (code c =? 215)%nat)
  then ascii_of_nat (code c + 32) else c.

Fixpoint lower (s : string) : string :=
  match s with
  | EmptyString => EmptyString
  | String c s' => String (lower_char c) (lower s')
  end.

(** [c.isspace()], which is what [\s] tests in a [str] pattern. *)
Definition is_space (c : ascii) : bool :=
  between 9 13 c || between 28 32 c || (code c =? 133)%nat || (code c =? 160)%nat.

Fixpoint is_prefix (p s : string) : bool :=
  match p, s with
  | EmptyString, _ => true
  | String a p', String b s' => Ascii.eqb a b && is_prefix p' s'
  | String _ _, EmptyString => false
  end.

(** [p in s] *)
Fixpoint contains (p s : string) : bool :=
  is_prefix p s ||
  match s with
  | EmptyString => false
  | String _ s' => contains p s'
  end.

Fixpoint mem_char (c : ascii) (s : string) : bool :=
  match s with
  | EmptyString => false
  | String d s' => Ascii.eqb c d || mem_char c s'
  end.

Fixpoint drop (n : nat) (s : string) : string :=
  match n, s with
  | O, _ => s
  | S n', String _ s' => drop n' s'
  | S _, EmptyString => EmptyString
  end.

Fixpoint take (n : nat) (s : string) : string :=
  match n, s with
  | O, _ => EmptyString
  | S n', String c s' => String c (take n' s')
  | S _, EmptyString => EmptyString
  end.

Definition is_suffix (p s : string) : bool :=
  (String.length p <=? String.length s)%nat &&
  String.eqb (drop (String.length s - String.length p) s) p.

(** [sep.join(l)] *)
Fixpoint join (sep : string) (l : list string) : string :=
  match l with
  | [] => ""
  | [x] => x
  | x :: l' => x ++ sep ++ join sep l'
  end.

(** [str(z)] for an [int] *)
Definition of_Z (z : Z) : string := NilZero.string_of_int (Z.to_int z).

End Str.

(** ** Values and the heap of mapping objects *)

(** The values a header can hold.  [VStr] is the common case. *)
Inductive value : Type :=
| VNone
| VBool (b : bool)
| VInt (z : Z)
| VStr (s : string).

(** A dict: keys in insertion order, no key twice. *)
Abbreviation dict := (list (string * value)).

Definition dict_wf (d : dict) : Prop := NoDup d.*1.

(** [d[k] = v]: an existing key keeps its place, a new key goes last. *)
Fixpoint dict_setitem (d : dict) (k : string) (v : value) : dict :=
  match d with
  | [] => [(k, v)]
  | (k', v') :: d' =>
      if String.eqb k' k then (k', v) :: d' else (k', v') :: dict_setitem d' k v
  end.

(** [dict(items)] *)
Definition dict_of_items (items : list (string * value)) : dict :=
  foldl (fun acc kv => dict_setitem acc kv.1 kv.2) [] items.

(** The heap: mapping objects by address. *)
Abbreviation addr := nat (only parsing).
Abbreviation heap := (list dict).

(** What a caller can pass as [headers]: a reference to a mapping object,
    or something that is neither a dict nor has [items]. *)
Inductive pyobj : Type :=
| ORef (a : addr)
| OVal (v : value).

Definition heap_alloc (h : heap) (d : dict) : heap * addr := ((h ++ [d])%list, length h).

(** [obj[k] = v] on the object at [a] *)
Definition heap_setitem (h : heap) (a : addr) (k : string) (v : value) : heap :=
  match h !! a with
  | Some d => <[a := dict_setitem d k v]> h
  | None => h
  end.

(** ** The header sanitizer *)

Definition MASK : string := "********".

Definition sensitive_headers : gset string :=
  {[ "authorization"; "cookie"; "set-cookie"; "x-atlassian-token";
     "proxy-authorization" ]}.

Definition is_sensitive_header (key : string) : bool :=
  bool_decide (Str.lower key ∈ sensitive_headers).

(** The loop [for key in sanitized: ...] over the keys of the object at [a]. *)
Definition mask_loop (a : addr) (keys : list string) (h : heap) : heap :=
  foldl (fun h' key =>
           if is_sensitive_header key then heap_setitem h' a key (VStr MASK)
           else h')
        h keys.

Definition _sanitize_headers (h : heap) (headers : pyobj) : heap * pyobj :=
  match headers with
  | OVal _ => (h, headers)
  | ORef a =>
      match h !! a with
      | None => (h, headers)
      | Some items =>
          let (h1, sanitized) := heap_alloc h (dict_of_items items) in
          (mask_loop sanitized (dict_of_items items).*1 h1, ORef sanitized)
      end
  end.

(** The entry the specification describes for an input entry. *)
Definition mask_header (kv : string * value) : string * value :=
  if is_sensitive_header kv.1 then (kv.1, VStr MASK) else kv.

(** ** JSON values and the recursive scrub *)

(** What [json.loads] builds.  A number written with a fraction or an
    exponent is a [float]; it is kept by its text. *)
Inductive json : Type :=
| JNull
| JBool (b : bool)
| JInt (z : Z)
| JFloat (lit : string)
| JStr (s : string)
| JList (l : list json)
| JDict (d : list (string * json)).

Definition sensitive_keys : gset string :=
  {[ "password"; "token"; "secret"; "access_token" ]}.

Definition is_sensitive_key (key : string) : bool :=
  bool_decide (Str.lower key ∈ sensitive_keys).

(** The nested function [scrub] of [_sanitize_body].  The data is the tree
    [json.loads] has just built, so no object is reachable twice, and
    [obj[key] = "********"] on a key of [obj] replaces the value of that
    entry where it stands; [scrub] returns the object as it is after the
    call. *)
Fixpoint scrub (obj : json) : json :=
  match obj with
  | JDict d =>
      JDict (map (fun kv => match kv with
                            | (key, value) =>
                                if is_sensitive_key key then (key, JStr MASK)
                                else (key, scrub value)
                            end) d)
  | JList l => JList (map scrub l)
  | _ => obj
  end.

(** ** Regular expressions: the fragment the two patterns use *)

Module Re.

(** One step of a pattern.  [Star p] is a greedy [[p]*]; [Mark] records the
    current position (where a group opens or closes). *)
Inductive atom : Type :=
| Lit (c : ascii)
| Cls (p : ascii -> bool)
| Star (p : ascii -> bool)
| Mark.

Definition pattern : Type := list atom.

(** A literal under [re.I]. *)
Definition lit_eq (c d : ascii) : bool :=
  Ascii.eqb (Str.lower_char c) (Str.lower_char d).

Fixpoint lits (s : string) : pattern :=
  match s with
  | EmptyString => []
  | String c s' => Lit c :: lits s'
  end.

(** Backtracking match of [r] at the head of [s]: the end position and the
    marks, last first. *)
Fixpoint rmatch (r : pattern) (s : string) (pos : nat) (marks : list nat)
  : option (nat * list nat) :=
  match r with
  | [] => Some (pos, marks)
  | Lit c :: r' =>
      match s with
      | String d s' => if lit_eq c d then rmatch r' s' (S pos) marks else None
      | EmptyString => None
      end
  | Cls p :: r' =>
      match s with
      | String d s' => if p d then rmatch r' s' (S pos) marks else None
      | EmptyString => None
      end
  | Mark :: r' => rmatch r' s pos (pos :: marks)
  | Star p :: r' =>
      (fix star (s : string) (pos : nat) {struct s} : option (nat * list nat) :=
         match s with
         | String d s' =>
             if p d then
               match star s' (S pos) with
               | Some m => Some m
               | None => rmatch r' s pos marks
               end
             else rmatch r' s pos marks
         | EmptyString => rmatch r' s pos marks
         end) s pos
  end.

(** Group [i] (from 1) of a match on [s]. *)
Definition group (s : string) (marks : list nat) (i : nat) : string :=
  let ms := rev marks in
  let b := nth (2 * i - 2) ms 0 in
  let e := nth (2 * i - 1) ms 0 in
  Str.take (e - b) (Str.drop b s).

(** [re.sub(r, repl, s)]: leftmost matches, left to right, none overlapping.
    [skip] counts the characters of the current match still to pass.  Both
    patterns below consume at least one character, so the empty match is
    not treated. *)
Fixpoint sub_from (r : pattern) (repl : string -> list nat -> string)
    (skip : nat) (s : string) : string :=
  match skip with
  | S k =>
      match s with
      | String _ s' => sub_from r repl k s'
      | EmptyString => EmptyString
      end
  | O =>
      match s with
      | EmptyString => EmptyString
      | String c s' =>
          match rmatch r s 0 [] with
          | Some (S n, marks) => repl s marks ++ sub_from r repl n s'
          | _ => String c (sub_from r repl 0 s')
          end
      end
  end.

Definition sub (r : pattern) (repl : string -> list nat -> string) (s : string) : string :=
  sub_from r repl 0 s.

Definition dquote : ascii := ascii_of_nat 34.

Definition not_dquote (c : ascii) : bool := negb (Ascii.eqb c dquote).

Definition form_value_char (c : ascii) : bool :=
  negb (Ascii.eqb c "&"%char) && negb (Str.is_space c).

(** The pattern [(QpasswordQ\s*:\s*Q)[^Q]+(Q)], where Q stands for the
    double quote character. *)
Definition json_password : pattern :=
  ([Mark; Lit dquote] ++ lits "password" ++
   [Lit dquote; Star Str.is_space; Lit ":"%char; Star Str.is_space; Lit dquote; Mark;
    Cls not_dquote; Star not_dquote;
    Mark; Lit dquote; Mark])%list.

(** [\1********\2] *)
Definition json_password_repl (s : string) (marks : list nat) : string :=
  group s marks 1 ++ MASK ++ group s marks 2.

(** [(password=[^&\s]+)] *)
Definition form_password : pattern :=
  ([Mark] ++ lits "password=" ++ [Cls form_value_char; Star form_value_char; Mark])%list.

(** [password=********] *)
Definition form_password_repl (_ : string) (_ : list nat) : string :=
  "password=" ++ MASK.

End Re.

(** ** The body sanitizer *)

Section Body.

(** [json.loads], with [None] for [JSONDecodeError], and [json.dumps]. *)
Variable loads : string -> option json.
Variable dumps : json -> string.

(** The two substitutions of the [except] branch. *)
Definition sub_json_password (body : string) : string :=
  Re.sub Re.json_password Re.json_password_repl body.

Definition sub_form_password (body : string) : string :=
  Re.sub Re.form_password Re.form_password_repl body.

Definition regex_fallback (body : string) : string :=
  let body := sub_json_password body in
  sub_form_password body.

Definition _sanitize_body (body : value) : value :=
  match body with
  | VStr s =>
      match loads s with
      | Some data =>
          match data with
          | JDict _ => VStr (dumps (scrub data))
          | _ => body
          end
      | None => VStr (regex_fallback s)
      end
  | _ => body
  end.

End Body.

(** ** A JSON decoder and encoder for the concrete examples

    [Json.loads] and [Json.dumps] follow Python's [json] module with its
    default options (strict decoding; [ensure_ascii], separators [", "] and
    [": "] when encoding) on texts whose characters and [\u] escapes stay
    below code point 256. *)

Module Json.

Definition is_ws (c : ascii) : bool :=
  let n := Str.code c in
  (n =? 32)%nat || (n =? 9)%nat || (n =? 10)%nat || (n =? 13)%nat.

Fixpoint skip_ws (s : string) : string :=
  match s with
  | String c s' => if is_ws c then skip_ws s' else s
  | EmptyString => s
  end.

Definition is_digit (c : ascii) : bool := Str.between 48 57 c.

Definition hex_val (c : ascii) : option nat :=
  let n := Str.code c in
  if Str.between 48 57 c then Some (n - 48)
  else if Str.between 97 102 c then Some (n - 87)
  else if Str.between 65 70 c then Some (n - 55)
  else None.

Definition hex4 (a b c d : ascii) : option nat :=
  match hex_val a, hex_val b, hex_val c, hex_val d with
  | Some x, Some y, Some z, Some w => Some (((x * 16 + y) * 16 + z) * 16 + w)
  | _, _, _, _ => None
  end.

Definition simple_escape (e : ascii) : option ascii :=
  let n := Str.code e in
  if (n =? 34)%nat then Some e                     (* quote *)
  else if (n =? 92)%nat then Some e                (* backslash *)
  else if (n =? 47)%nat then Some e                (* slash *)
  else if (n =? 98)%nat then Some (ascii_of_nat 8)
  else if (n =? 102)%nat then Some (ascii_of_nat 12)
  else if (n =? 110)%nat then Some (ascii_of_nat 10)
  else if (n =? 114)%nat then Some (ascii_of_nat 13)
  else if (n =? 116)%nat then Some (ascii_of_nat 9)
  else None.

Definition cons_fst (c : ascii) (r : option (string * string)) : option (string * string) :=
  match r with
  | Some (t, rest) => Some (String c t, rest)
  | None => None
  end.

(** The characters of a string literal after its opening quote: the
    decoded string and the text after the closing quote. *)
Fixpoint string_body (s : string) : option (string * string) :=
  match s with
  | EmptyString => None
  | String c s' =>
      if (Str.code c =? 34)%nat then Some (EmptyString, s')
      else if (Str.code c =? 92)%nat then
        match s' with
        | EmptyString => None
        | String e s'' =>
            match simple_escape e with
            | Some ch => cons_fst ch (string_body s'')
            | None =>
                if (Str.code e =? 117)%nat then
                  match s'' with
                  | String h1 (String h2 (String h3 (String h4 s5))) =>
                      match hex4 h1 h2 h3 h4 with
                      | Some n =>
                          if (n <? 256)%nat then cons_fst (ascii_of_nat n) (string_body s5)
                          else None
                      | None => None
                      end
                  | _ => None
                  end
                else None
            end
        end
      else if (Str.code c <? 32)%nat then None
      else cons_fst c (string_body s')
  end.

(** The longest prefix of [s] in the class [p], and the rest. *)
Fixpoint span (p : ascii -> bool) (s : string) : string * string :=
  match s with
  | String c s' =>
      if p c then let (a, b) := span p s' in (String c a, b) else (EmptyString, s)
  | EmptyString => (EmptyString, EmptyString)
  end.

Fixpoint digits_to_Z (acc : Z) (s : string) : Z :=
  match s with
  | String c s' => digits_to_Z (10 * acc + Z.of_nat (Str.code c - 48)) s'
  | EmptyString => acc
  end.

Definition head_is (p : ascii -> bool) (s : string) : bool :=
  match s with
  | String c _ => p c
  | EmptyString => false
  end.

(** A number: an optional minus, then 0 or a digit from 1 to 9 followed by
    digits; then, each optional, a point with one digit or more, and an
    [e] or [E] with an optional sign and one digit or more. *)
Definition number (s : string) : option (json * string) :=
  let (sign, s1) :=
    match s with
    | String c s' => if Ascii.eqb c "-"%char then ("-", s') else ("", s)
    | EmptyString => ("", s)
    end in
  let int_part :=
    match s1 with
    | String c s2 =>
        if Ascii.eqb c "0"%char then Some ("0", s2)
        else if is_digit c then Some (span is_digit s1)
        else None
    | EmptyString => None
    end in
  match int_part with
  | None => None
  | Some (ds, r1) =>
      let (frac, r2) :=
        match r1 with
        | String c r =>
            if Ascii.eqb c "."%char && head_is is_digit r
            then let (fs, r') := span is_digit r in ("." ++ fs, r')
            else ("", r1)
        | EmptyString => ("", r1)
        end in
      let (ex, r3) :=
        match r2 with
        | String c r =>
            if Ascii.eqb c "e"%char || Ascii.eqb c "E"%char then
              let (sg, r') :=
                match r with
                | String d r'' =>
                    if Ascii.eqb d "+"%char || Ascii.eqb d "-"%char
                    then (String d "", r'') else ("", r)
                | EmptyString => ("", r)
                end in
              if head_is is_digit r'
              then let (es, r'') := span is_digit r' in (String c (sg ++ es), r'')
              else ("", r2)
            else ("", r2)
        | EmptyString => ("", r2)
        end in
      if String.eqb frac "" && String.eqb ex ""
      then Some (JInt (if String.eqb sign "-" then - digits_to_Z 0 ds else digits_to_Z 0 ds), r3)
      else Some (JFloat (sign ++ ds ++ frac ++ ex), r3)
  end.

(** A key assigned twice keeps its first place and its last value. *)
Fixpoint obj_setitem (d : list (string * json)) (k : string) (v : json) : list (string * json) :=
  match d with
  | [] => [(k, v)]
  | (k', v') :: d' =>
      if String.eqb k' k then (k', v) :: d' else (k', v') :: obj_setitem d' k v
  end.

Section Containers.

Variable scan_once : string -> option (json * string).

(** The elements of an array, from the first one on; [n] bounds their number. *)
Fixpoint array_items (n : nat) (acc : list json) (s : string) : option (json * string) :=
  match n with
  | O => None
  | S n' =>
      match scan_once s with
      | None => None
      | Some (v, r) =>
          match skip_ws r with
          | String c r' =>
              if Ascii.eqb c "]"%char then Some (JList (rev (v :: acc)), r')
              else if Ascii.eqb c ","%char then array_items n' (v :: acc) (skip_ws r')
              else None
          | EmptyString => None
          end
      end
  end.

Definition array (s : string) : option (json * string) :=
  match skip_ws s with
  | String c r =>
      if Ascii.eqb c "]"%char then Some (JList [], r)
      else array_items (String.length s) [] (skip_ws s)
  | EmptyString => None
  end.

(** The pairs of an object, from the quote that opens the first key on. *)
Fixpoint object_pairs (n : nat) (acc : list (string * json)) (s : string)
  : option (json * string) :=
  match n with
  | O => None
  | S n' =>
      match s with
      | String q s1 =>
          if (Str.code q =? 34)%nat then
            match string_body s1 with
            | None => None
            | Some (key, r) =>
                match skip_ws r with
                | String c r1 =>
                    if Ascii.eqb c ":"%char then
                      match scan_once (skip_ws r1) with
                      | None => None
                      | Some (v, r2) =>
                          match skip_ws r2 with
                          | String e r3 =>
                              if Ascii.eqb e "}"%char
                              then Some (JDict (obj_setitem acc key v), r3)
                              else if Ascii.eqb e ","%char
                              then object_pairs n' (obj_setitem acc key v) (skip_ws r3)
                              else None
                          | EmptyString => None
                          end
                      end
                    else None
                | EmptyString => None
                end
            end
          else None
      | EmptyString => None
      end
  end.

Definition object (s : string) : option (json * string) :=
  match skip_ws s with
  | String c r =>
      if Ascii.eqb c "}"%char then Some (JDict [], r)
      else object_pairs (String.length s) [] (skip_ws s)
  | EmptyString => None
  end.

End Containers.

Definition literal (name : string) (v : json) (s : string) : option (json * string) :=
  if Str.is_prefix name s then Some (v, Str.drop (String.length name) s) else None.

(** One value at the head of [s]; [fuel] bounds the nesting depth. *)
Fixpoint scan (fuel : nat) (s : string) : option (json * string) :=
  match fuel with
  | O => None
  | S f =>
      match s with
      | EmptyString => None
      | String c s' =>
          if (Str.code c =? 34)%nat then
            match string_body s' with
            | Some (t, r) => Some (JStr t, r)
            | None => None
            end
          else if Ascii.eqb c "{"%char then object (scan f) s'
          else if Ascii.eqb c "["%char then array (scan f) s'
          else if Str.is_prefix "null" s then literal "null" JNull s
          else if Str.is_prefix "true" s then literal "true" (JBool true) s
          else if Str.is_prefix "false" s then literal "false" (JBool false) s
          else
            match number s with
            | Some r => Some r
            | None =>
                if Str.is_prefix "NaN" s then literal "NaN" (JFloat "NaN") s
                else if Str.is_prefix "Infinity" s then literal "Infinity" (JFloat "Infinity") s
                else if Str.is_prefix "-Infinity" s then literal "-Infinity" (JFloat "-Infinity") s
                else None
            end
      end
  end.

(** [json.loads(s)]; [None] is [JSONDecodeError]. *)
Definition loads (s : string) : option json :=
  match scan (S (String.length s)) (skip_ws s) with
  | Some (v, r) =>
      match skip_ws r with
      | EmptyString => Some v
      | String _ _ => None
      end
  | None => None
  end.

Definition hex_digit (n : nat) : ascii :=
  if (n <? 10)%nat then ascii_of_nat (48 + n) else ascii_of_nat (87 + n).

Definition backslash : string := String (ascii_of_nat 92) "".

Definition escape_char (c : ascii) : string :=
  let n := Str.code c in
  if (n =? 34)%nat then backslash ++ String c ""
  else if (n =? 92)%nat then backslash ++ backslash
  else if (n =? 10)%nat then backslash ++ "n"
  else if (n =? 13)%nat then backslash ++ "r"
  else if (n =? 9)%nat then backslash ++ "t"
  else if (n =? 12)%nat then backslash ++ "f"
  else if (n =? 8)%nat then backslash ++ "b"
  else if Str.between 32 126 c then String c ""
  else backslash ++ "u00" ++ String (hex_digit (n / 16)) (String (hex_digit (n mod 16)) "").

Fixpoint escape (s : string) : string :=
  match s with
  | EmptyString => EmptyString
  | String c s' => escape_char c ++ escape s'
  end.

Definition encode_str (s : string) : string :=
  String Re.dquote (escape s ++ String Re.dquote "").

(** [json.dumps(v)] *)
Fixpoint dumps (v : json) : string :=
  match v with
  | JNull => "null"
  | JBool true => "true"
  | JBool false => "false"
  | JInt z => Str.of_Z z
  | JFloat lit => lit
  | JStr s => encode_str s
  | JList l => "[" ++ Str.join ", " (map dumps l) ++ "]"
  | JDict d =>
      "{" ++ Str.join ", "
               (map (fun kv => match kv with
                               | (k, x) => encode_str k ++ ": " ++ dumps x
                               end) d) ++ "}"
  end.

End Json.

(** ** How values are displayed *)

Module Repr.

Definition nl : string := String (ascii_of_nat 10) "".
Definition tab : string := String (ascii_of_nat 9) "".
Definition squote : ascii := ascii_of_nat 39.

(** [c.isprintable()] for a code point below 256. *)
Definition printable (c : ascii) : bool :=
  Str.between 32 126 c || (Str.between 161 255 c && negb (Str.code c =? 173)%nat).

Definition hex2 (c : ascii) : string :=
  Json.backslash ++ "x" ++
  String (Json.hex_digit (Str.code c / 16)) (String (Json.hex_digit (Str.code c mod 16)) "").

Definition repr_char (quote c : ascii) : string :=
  let n := Str.code c in
  if Ascii.eqb c quote || (n =? 92)%nat then Json.backslash ++ String c ""
  else if (n =? 9)%nat then Json.backslash ++ "t"
  else if (n =? 10)%nat then Json.backslash ++ "n"
  else if (n =? 13)%nat then Json.backslash ++ "r"
  else if printable c then String c ""
  else hex2 c.

Fixpoint repr_chars (quote : ascii) (s : string) : string :=
  match s with
  | EmptyString => EmptyString
  | String c s' => repr_char quote c ++ repr_chars quote s'
  end.

(** [repr(s)] for a [str]: single quotes, unless the string holds a single
    quote and no double quote. *)
Definition repr_str (s : string) : string :=
  let quote :=
    if Str.mem_char squote s && negb (Str.mem_char Re.dquote s)
    then Re.dquote else squote in
  String quote (repr_chars quote s ++ String quote "").

Definition repr_value (v : value) : string :=
  match v with
  | VNone => "None"
  | VBool true => "True"
  | VBool false => "False"
  | VInt z => Str.of_Z z
  | VStr s => repr_str s
  end.

(** [str(v)], which is what an f-string field shows. *)
Definition str_value (v : value) : string :=
  match v with
  | VStr s => s
  | _ => repr_value v
  end.

Definition repr_dict (d : dict) : string :=
  "{" ++ Str.join ", " (map (fun kv => repr_str kv.1 ++ ": " ++ repr_value kv.2) d) ++ "}".

Definition str_obj (h : heap) (o : pyobj) : string :=
  match o with
  | OVal v => str_value v
  | ORef a =>
      match h !! a with
      | Some d => repr_dict d
      | None => ""
      end
  end.

Definition str_status (status_code : option Z) : string :=
  match status_code with
  | Some z => Str.of_Z z
  | None => "None"
  end.

End Repr.

(** ** The file system and [tempfile.mkstemp] *)

Inductive exn : Type :=
| PermissionError
| FileExistsError.

Inductive result (A : Type) : Type :=
| Ok (a : A)
| Raise (e : exn).

Arguments Ok {A} a.
Arguments Raise {A} e.

(** The files by path, the directory of temporary files and whether a file
    can be created there, and the names the generator of [tempfile] yields
    next. *)
Record os_state : Type := {
  files : gmap string string;
  tmpdir : string;
  tmp_writable : bool;
  candidates : list string
}.

Definition TMP_MAX : nat := 100 * 100.

(** The loop of [_mkstemp_inner]: the first candidate whose file does not
    exist yet, and the candidates left. *)
Fixpoint mkstemp_inner (fs : gmap string string) (dir pre suf : string)
    (names : list string) (attempts : nat) : option (string * list string) :=
  match attempts, names with
  | S n, name :: rest =>
      let file := dir ++ "/" ++ pre ++ name ++ suf in
      match fs !! file with
      | None => Some (file, rest)
      | Some _ => mkstemp_inner fs dir pre suf rest n
      end
  | _, _ => None
  end.

Definition mkstemp (suffix prefix : string) (st : os_state) : os_state * result string :=
  if tmp_writable st then
    match mkstemp_inner (files st) (tmpdir st) prefix suffix (candidates st) TMP_MAX with
    | Some (file, rest) =>
        ({| files := <[file := ""]> (files st); tmpdir := tmpdir st;
            tmp_writable := tmp_writable st; candidates := rest |}, Ok file)
    | None => (st, Raise FileExistsError)
    end
  else (st, Raise PermissionError).

(** [with open(file_name, "w") as f: f.write(data)] *)
Definition write_file (file_name data : string) (st : os_state) : os_state :=
  {| files := <[file_name := data]> (files st); tmpdir := tmpdir st;
     tmp_writable := tmp_writable st; candidates := candidates st |}.

(** ** The error object *)

(** A request or response as the error sees it: [None] where the object has
    no such attribute. *)
Record context : Type := {
  ctx_headers : option pyobj;
  ctx_text : option value
}.

Record JIRAError : Type := {
  status_code : option Z;
  text : option string;
  url : option string;
  request : option context;
  response : option context;
  headers : option pyobj;
  log_to_tempfile : bool;
  ci_run : bool
}.

(** [JIRAError.__init__]; [environ] holds the names set in [os.environ]. *)
Definition JIRAError_init (environ : gset string)
    (text : option string) (status_code : option Z) (url : option string)
    (request response : option context) (kwargs : list (string * pyobj)) : JIRAError :=
  {| status_code := status_code;
     text := text;
     url := url;
     request := request;
     response := response;
     headers := snd <$> find (fun kv => String.eqb kv.1 "headers") kwargs;
     log_to_tempfile := bool_decide ("PYJIRA_LOG_TO_TEMPFILE" ∈ environ);
     ci_run := bool_decide ("GITHUB_ACTION" ∈ environ) |}.

(** Truth of an optional [str]: neither [None] nor empty. *)
Definition truthy (s : option string) : bool :=
  match s with
  | Some (String _ _) => true
  | _ => false
  end.

Definition str_or_empty (s : option string) : string :=
  match s with
  | Some x => x
  | None => ""
  end.

Section Render.

Variable loads : string -> option json.
Variable dumps : json -> string.

(** The summary line: the lines of [__str__] before [details]. *)
Definition summary (self : JIRAError) : string :=
  let t := "JiraError HTTP " ++ Repr.str_status (status_code self) in
  if truthy (url self) then t ++ " url: " ++ str_or_empty (url self) else t.

(** The two lines a request or response adds to [details]. *)
Definition context_details (label : string) (ctx : option context) (h : heap)
  : heap * string :=
  match ctx with
  | None => (h, "")
  | Some c =>
      let (h1, d1) :=
        match ctx_headers c with
        | Some hd =>
            let (h', o) := _sanitize_headers h hd in
            (h', Repr.nl ++ Repr.tab ++ label ++ " headers = " ++ Repr.str_obj h' o)
        | None => (h, "")
        end in
      let d2 :=
        match ctx_text c with
        | Some tx =>
            Repr.nl ++ Repr.tab ++ label ++ " text = " ++
            Repr.str_value (_sanitize_body loads dumps tx)
        | None => ""
        end in
      (h1, d1 ++ d2)
  end.

Definition details (self : JIRAError) (h : heap) : heap * string :=
  let (h1, d1) := context_details "request" (request self) h in
  let (h2, d2) := context_details "response" (response self) h1 in
  (h2, d1 ++ d2).

(** [JIRAError.__str__] *)
Definition JIRAError_str (self : JIRAError) (h : heap) (st : os_state)
  : heap * os_state * result string :=
  let t := summary self in
  let (h', details) := details self h in
  if log_to_tempfile self then
    match mkstemp ".tmp" "jiraerror-" st with
    | (st1, Ok file_name) =>
        (h', write_file file_name details st1, Ok (t ++ " details: " ++ file_name))
    | (st1, Raise e) => (h', st1, Raise e)
    end
  else
    let t := if truthy (text self) then t ++ Repr.nl ++ Repr.tab ++ "text: " ++ str_or_empty (text self)
             else t in
    (h', st, Ok (t ++ Repr.nl ++ Repr.tab ++ details)).

End Render.

(** ** Positions in a JSON value, to state what [scrub] does *)

Inductive step : Type :=
| Key (k : string)
| Idx (i : nat).

Fixpoint lookup_key (k : string) (d : list (string * json)) : option json :=
  match d with
  | [] => None
  | (k', v) :: d' => if String.eqb k' k then Some v else lookup_key k d'
  end.

(** The value reached from [v] along [p]: through the key of an object, or
    the index of an array. *)
Fixpoint get (v : json) (p : list step) : option json :=
  match p with
  | [] => Some v
  | Key k :: p' =>
      match v with
      | JDict d =>
          match lookup_key k d with
          | Some x => get x p'
          | None => None
          end
      | _ => None
      end
  | Idx i :: p' =>
      match v with
      | JList l =>
          match l !! i with
          | Some x => get x p'
          | None => None
          end
      | _ => None
      end
  end.

(** No key on the path is a sensitive one. *)
Definition clean (p : list step) : bool :=
  forallb (fun st => match st with
                     | Key k => negb (is_sensitive_key k)
                     | Idx _ => true
                     end) p.

Definition is_dict (v : json) : bool :=
  match v with
  | JDict _ => true
  | _ => false
  end.

(** Writing a text with double quotes: every apostrophe of [s] stands for
    a double quote. *)
Fixpoint qq (s : string) : string :=
  match s with
  | EmptyString => EmptyString
  | String c s' => String (if Ascii.eqb c Repr.squote then Re.dquote else c) (qq s')
  end.

(** One round of [mask_loop], on the dict itself. *)
Definition mask_step (d : dict) (key : string) : dict :=
  if is_sensitive_header key then dict_setitem d key (VStr MASK) else d.

(** What [scrub] leaves in an entry. *)
Definition scrub_entry (kv : string * json) : string * json :=
  match kv with
  | (key, value) =>
      if is_sensitive_key key then (key, JStr MASK) else (key, scrub value)
  end.

(** To state what the matcher finds: a literal prefix under [re.I], and the
    length of the longest prefix in a class. *)
Fixpoint ci_prefix (w s : string) : bool :=
  match w, s with
  | EmptyString, _ => true
  | String a w', String b s' => Re.lit_eq a b && ci_prefix w' s'
  | String _ _, EmptyString => false
  end.

Fixpoint run (p : ascii -> bool) (s : string) : nat :=
  match s with
  | String c s' => if p c then S (run p s') else 0
  | EmptyString => 0
  end.

(** No proper split of [p] has its first part at the end of [a]; no proper
    split of [p] has its second part at the head of [b]. *)
Definition no_suffix_overlap (p a : string) : bool :=
  forallb (fun i => negb (Str.is_suffix (Str.take i p) a)) (seq 1 (String.length p - 1)).

Definition no_prefix_overlap (p b : string) : bool :=
  forallb (fun i => negb (Str.is_prefix (Str.drop i p) b)) (seq 1 (String.length p - 1)).


(** The details block of the end-to-end example, after the summary line. *)
Definition tail404 : string :=
  Repr.nl ++ Repr.tab ++ Repr.nl ++ Repr.tab ++
  "response headers = {'Authorization': '********'}" ++ Repr.nl ++ Repr.tab ++
  qq "response text = {'password': '********'}".

(** The objects of the end-to-end example. *)
Module Example.

Definition heap0 : heap := [[("Authorization", VStr "Bearer xyz")]].

Definition response0 : context :=
  {| ctx_headers := Some (ORef 0);
     ctx_text := Some (VStr (qq "{'password':'secret'}")) |}.

Definition error0 (environ : gset string) (text : option string) : JIRAError :=
  JIRAError_init environ text (Some 404%Z) (Some "https://jira.example.com/rest")
    None (Some response0) [].

(** A request and a response with neither [headers] nor [text]. *)
Definition bare : context := {| ctx_headers := None; ctx_text := None |}.

Definition error_bare (environ : gset string) : JIRAError :=
  JIRAError_init environ None None None (Some bare) (Some bare) [].

(** One temporary file exists already; its name comes up first. *)
Definition os0 : os_state :=
  {| files := {[ "/tmp/jiraerror-abc.tmp" := "old" ]};
     tmpdir := "/tmp";
     tmp_writable := true;
     candidates := ["abc"; "def"] |}.


Definition log_env : gset string := {[ "PYJIRA_LOG_TO_TEMPFILE" ]}.

End Example.

(** ** [NotJIRAInstanceError] *)




(** ** Further notions for the properties *)

(** Some key of [v], at any depth, is a sensitive one. *)
Fixpoint has_sensitive (v : json) : bool :=
  match v with
  | JDict d =>
      existsb (fun kv => match kv with
                         | (key, value) => is_sensitive_key key || has_sensitive value
                         end) d
  | JList l => existsb has_sensitive l
  | _ => false
  end.

(** The word [w] occurs in [s], in any case. *)
Fixpoint ci_contains (w s : string) : bool :=
  ci_prefix w s ||
  match s with
  | EmptyString => false
  | String _ s' => ci_contains w s'
  end.

(** Every character of [s] is in the class [p]. *)
Fixpoint all_chars (p : ascii -> bool) (s : string) : bool :=
  match s with
  | EmptyString => true
  | String c s' => p c && all_chars p s'
  end.

(** [s] is empty or starts with a character outside the class [p]. *)
Definition starts_outside (p : ascii -> bool) (s : string) : bool :=
  match s with
  | EmptyString => true
  | String c _ => negb (p c)
  end.

(** The text up to the value in a match of [json_password]: the quoted
    name, white space, the colon, white space, the opening quote. *)
Definition json_key (name ws1 ws2 : string) : string :=
  String Re.dquote
    (name ++ String Re.dquote (ws1 ++ String ":"%char (ws2 ++ String Re.dquote ""))).

(** A file system in which two temporary files can still be created. *)
Definition os_three_names : os_state :=
  {| files := {[ "/tmp/jiraerror-abc.tmp" := "old" ]};
     tmpdir := "/tmp";
     tmp_writable := true;
     candidates := ["abc"; "def"; "ghi"] |}.



(** The headers of a request or response refer to an object of the heap. *)
Definition ctx_allocated (h : heap) (ctx : option context) : Prop :=
  match ctx with
  | Some {| ctx_headers := Some (ORef a) |} => a < length h
  | _ => True
  end.

Definition allocated (h : heap) (self : JIRAError) : Prop :=
  ctx_allocated h (request self) ∧ ctx_allocated h (response self).

(** * Properties *)

(** ** Dicts and the heap *)

Lemma dict_setitem_fresh (d : dict) (k : string) (v : value) :
  k ∉ d.*1 → dict_setitem d k v = (d ++ [(k, v)])%list.
Proof.
  induction d as [|[k' v'] d IH]; simpl; intros Hk; [done|].
  apply not_elem_of_cons in Hk as [Hne Hk].
  destruct (String.eqb_spec k' k) as [->|_]; [done|].
  by rewrite IH.
Qed.

Lemma dict_of_items_app (acc items : dict) :
  NoDup (acc ++ items)%list.*1 →
  foldl (fun acc kv => dict_setitem acc kv.1 kv.2) acc items = (acc ++ items)%list.
Proof.
  revert acc. induction items as [|[k v] items IH]; intros acc Hnd; simpl.
  - by rewrite app_nil_r.
  - rewrite dict_setitem_fresh.
    + rewrite IH; rewrite <- app_assoc; done.
    + rewrite fmap_app in Hnd. apply NoDup_app in Hnd as (_ & Hdisj & _).
      intros Hin. apply (Hdisj k Hin). simpl. left.
Qed.

Lemma dict_of_items_wf (d : dict) : dict_wf d → dict_of_items d = d.
Proof. intros Hwf. unfold dict_of_items. by rewrite dict_of_items_app. Qed.

Lemma dict_setitem_middle (pre suf : dict) (k : string) (v w : value) :
  k ∉ pre.*1 →
  dict_setitem (pre ++ (k, v) :: suf)%list k w = (pre ++ (k, w) :: suf)%list.
Proof.
  induction pre as [|[k' v'] pre IH]; simpl; intros Hk.
  - by rewrite String.eqb_refl.
  - apply not_elem_of_cons in Hk as [Hne Hk].
    destruct (String.eqb_spec k' k) as [->|_]; [done|].
    by rewrite IH.
Qed.

Lemma mask_fold_map (pre suf : dict) :
  NoDup (pre ++ suf)%list.*1 →
  foldl mask_step (pre ++ suf)%list suf.*1 = (pre ++ (mask_header <$> suf))%list.
Proof.
  revert pre. induction suf as [|[k v] suf IH]; intros pre Hnd; [done|].
  assert (Hk : k ∉ pre.*1).
  { rewrite fmap_app in Hnd. apply NoDup_app in Hnd as (_ & Hdisj & _).
    intros Hin. apply (Hdisj k Hin). left. }
  assert (Hnd' : ∀ w, NoDup ((pre ++ [(k, w)]) ++ suf)%list.*1).
  { intros w. rewrite <- app_assoc. simpl.
    by rewrite !fmap_app in Hnd |- *. }
  cbn [fmap list_fmap foldl fst]. unfold mask_step at 2, mask_header at 1. simpl.
  destruct (is_sensitive_header k).
  - rewrite dict_setitem_middle by done.
    rewrite (cons_middle _ pre suf), app_assoc, IH by apply Hnd'.
    by rewrite <- app_assoc.
  - rewrite (cons_middle _ pre suf), app_assoc, IH by apply Hnd'.
    by rewrite <- app_assoc.
Qed.

Lemma mask_loop_heap (a : addr) (keys : list string) (h : heap) (d : dict) :
  h !! a = Some d →
  mask_loop a keys h = <[a := foldl mask_step d keys]> h.
Proof.
  unfold mask_loop.
  revert h d. induction keys as [|k keys IH]; intros h d Hd; simpl.
  - symmetry. by apply list_insert_id.
  - unfold mask_step at 2.
    destruct (is_sensitive_header k).
    + unfold heap_setitem. rewrite Hd.
      rewrite (IH _ (dict_setitem d k (VStr MASK))).
      * by rewrite list_insert_insert_eq.
      * apply list_lookup_insert_eq. by eapply lookup_lt_Some.
    + by apply IH.
Qed.

Lemma sanitize_headers_ref (h : heap) (a : addr) (d : dict) :
  h !! a = Some d → dict_wf d →
  _sanitize_headers h (ORef a) = ((h ++ [mask_header <$> d])%list, ORef (length h)).
Proof.
  intros Hd Hwf. unfold _sanitize_headers, heap_alloc. rewrite Hd.
  rewrite dict_of_items_wf by done.
  rewrite (mask_loop_heap _ _ _ d) by apply list_lookup_middle, eq_refl.
  f_equal.
  pose proof (mask_fold_map [] d Hwf) as Hfold.
  change ([] ++ d)%list with d in Hfold. rewrite Hfold. simpl.
  replace (length h) with (length h + 0) at 1 by lia.
  by rewrite insert_app_r.
Qed.

Lemma mask_header_keys (d : dict) : (mask_header <$> d).*1 = d.*1.
Proof.
  induction d as [|[k v] d IH]; [done|].
  rewrite !fmap_cons, IH. f_equal.
  unfold mask_header. simpl. by destruct (is_sensitive_header k).
Qed.

(** ** The header sanitizer *)

(** C1.  For a mapping [d] at address [a], [_sanitize_headers] returns a
    new mapping object (at an address not in use before) whose entries are
    those of [d], in the same order and under the same keys, where the value
    of every key whose lowercase form is a sensitive header name is the mask
    and every other value is the one of [d]; every object that was in the
    heap, the input mapping among them, is as before.  An input that is not
    a mapping is returned as it is, and the heap is unchanged. *)
Theorem sanitize_headers_masks (h : heap) (a : addr) (d : dict)
    (Hd : h !! a = Some d) (Hwf : dict_wf d) :
  (∃ (h' : heap) (a' : addr) (d' : dict),
      _sanitize_headers h (ORef a) = (h', ORef a') ∧
      h !! a' = None ∧
      h' !! a' = Some d' ∧
      d'.*1 = d.*1 ∧
      (∀ (i : nat) (k : string) (v : value),
          d !! i = Some (k, v) →
          d' !! i = Some (k, if bool_decide (Str.lower k ∈ sensitive_headers)
                             then VStr "********" else v)) ∧
      (∀ b : addr, b ≠ a' → h' !! b = h !! b) ∧
      h' !! a = Some d) ∧
  (∀ (h0 : heap) (v : value), _sanitize_headers h0 (OVal v) = (h0, OVal v)).
Proof.
  split; [|done].
  exists (h ++ [mask_header <$> d])%list, (length h), (mask_header <$> d).
  split; [by apply sanitize_headers_ref|].
  split; [by apply lookup_ge_None_2|].
  split; [by apply list_lookup_middle|].
  split; [apply mask_header_keys|].
  split.
  { intros i k v Hi. rewrite list_lookup_fmap, Hi. simpl.
    unfold mask_header, is_sensitive_header. simpl. by case_bool_decide. }
  split.
  - intros b Hb. destruct (decide (b < length h)) as [Hlt|Hge].
    + by rewrite lookup_app_l.
    + rewrite !lookup_ge_None_2; [done|lia|]. rewrite length_app. simpl. lia.
  - by apply lookup_app_l_Some.
Qed.

Lemma sanitize_headers_masks_witness :
  (∃ (h' : heap) (a' : addr) (d' : dict),
      _sanitize_headers
        [[("Authorization", VStr "Bearer xyz"); ("Accept", VStr "*/*");
          ("Set-Cookie", VStr "sid=1")]] (ORef 0) = (h', ORef a') ∧
      h' !! a' = Some d' ∧
      d' = [("Authorization", VStr "********"); ("Accept", VStr "*/*");
            ("Set-Cookie", VStr "********")] ∧
      h' !! 0 = Some [("Authorization", VStr "Bearer xyz"); ("Accept", VStr "*/*");
                      ("Set-Cookie", VStr "sid=1")]).
Proof.
  destruct (sanitize_headers_masks
              [[("Authorization", VStr "Bearer xyz"); ("Accept", VStr "*/*");
                ("Set-Cookie", VStr "sid=1")]] 0
              [("Authorization", VStr "Bearer xyz"); ("Accept", VStr "*/*");
               ("Set-Cookie", VStr "sid=1")])
    as [(h' & a' & d' & Hrun & _ & Hd' & _ & _ & _ & Hold) _].
  - reflexivity.
  - apply (bool_decide_unpack _). vm_compute. reflexivity.
  - exists h', a', d'. vm_compute in Hrun. injection Hrun as <- <-.
    vm_compute in Hd'. injection Hd' as <-.
    repeat split; reflexivity.
Defined.

(** ** The scrub *)

(** Induction on a JSON value, with the hypothesis for every element of an
    array and every value of an object. *)
Lemma json_nested_ind (P : json → Prop) :
  P JNull → (∀ b, P (JBool b)) → (∀ z, P (JInt z)) → (∀ lit, P (JFloat lit)) →
  (∀ s, P (JStr s)) →
  (∀ l, Forall P l → P (JList l)) →
  (∀ d, Forall (λ kv, P kv.2) d → P (JDict d)) →
  ∀ v, P v.
Proof.
  intros Hnull Hbool Hint Hfloat Hstr Hlist Hdict.
  fix IH 1. intros [ | b | z | lit | s | l | d].
  - apply Hnull.
  - apply Hbool.
  - apply Hint.
  - apply Hfloat.
  - apply Hstr.
  - apply Hlist. induction l as [|x l IHl]; constructor; [apply IH | apply IHl].
  - apply Hdict. induction d as [|[k x] d IHd]; constructor; [apply IH | apply IHd].
Qed.

Lemma scrub_dict (d : list (string * json)) :
  scrub (JDict d) = JDict (scrub_entry <$> d).
Proof. reflexivity. Qed.

Lemma scrub_list (l : list json) : scrub (JList l) = JList (scrub <$> l).
Proof. reflexivity. Qed.

Lemma scrub_entry_keys (d : list (string * json)) : (scrub_entry <$> d).*1 = d.*1.
Proof.
  induction d as [|[k v] d IH]; [done|].
  rewrite !fmap_cons, IH. f_equal. simpl. by destruct (is_sensitive_key k).
Qed.

Lemma lookup_key_scrub (k : string) (d : list (string * json)) :
  lookup_key k (scrub_entry <$> d) =
  (λ x, if is_sensitive_key k then JStr MASK else scrub x) <$> lookup_key k d.
Proof.
  induction d as [|[k' v] d IH]; [done|].
  rewrite fmap_cons. simpl.
  destruct (is_sensitive_key k') eqn:Hs; simpl;
    destruct (String.eqb_spec k' k) as [->|_]; simpl; try apply IH.
  all: by rewrite ?Hs.
Qed.

Lemma scrub_idempotent (v : json) : scrub (scrub v) = scrub v.
Proof.
  induction v as [ | | | | | l IH | d IH] using json_nested_ind; try done.
  - rewrite !scrub_list. f_equal. rewrite <- list_fmap_compose.
    apply Forall_fmap_ext_1. exact IH.
  - rewrite !scrub_dict. f_equal. rewrite <- list_fmap_compose.
    apply Forall_fmap_ext_1. eapply Forall_impl; [exact IH|].
    intros [k x] Hx. simpl in *.
    destruct (is_sensitive_key k) eqn:Hs; simpl; rewrite Hs; [done|by rewrite Hx].
Qed.

Lemma get_leaf (v : json) (p : list step) (x : json) :
  (∀ l, v ≠ JList l) → (∀ d, v ≠ JDict d) → get v p = Some x → p = [] ∧ x = v.
Proof.
  intros Hl Hd. destruct p as [|[k|i] p]; simpl.
  - intros [= <-]. done.
  - destruct v; try done. by destruct (Hd d).
  - destruct v; try done. by destruct (Hl l).
Qed.

(** Along a path with no sensitive key, the output holds the scrubbed form
    of what the input holds. *)
Lemma get_scrub_clean (p : list step) (v x : json) :
  clean p = true → get v p = Some x → get (scrub v) p = Some (scrub x).
Proof.
  revert v. induction p as [|[k|i] p IH]; intros v Hc Hg; simpl in *.
  - by injection Hg as <-.
  - apply andb_prop in Hc as [Hk Hc]. apply negb_true_iff in Hk.
    destruct v; try done. rewrite scrub_dict. simpl.
    rewrite lookup_key_scrub. destruct (lookup_key k d) as [y|]; [|done].
    simpl. rewrite Hk. by apply IH.
  - destruct v; try done. rewrite scrub_list. simpl.
    rewrite list_lookup_fmap. destruct (l !! i) as [y|]; [|done].
    simpl. by apply IH.
Qed.

(** A sensitive key of the input, reached with no sensitive key before it,
    holds the mask in the output. *)
Lemma get_scrub_masked (p : list step) (k : string) (v x : json) :
  clean p = true → is_sensitive_key k = true →
  get v (p ++ [Key k])%list = Some x →
  get (scrub v) (p ++ [Key k])%list = Some (JStr MASK).
Proof.
  revert v. induction p as [|[k'|i] p IH]; intros v Hc Hk Hg; simpl in *.
  - destruct v; try done. rewrite scrub_dict. simpl.
    rewrite lookup_key_scrub. destruct (lookup_key k d); [|done].
    simpl. by rewrite Hk.
  - apply andb_prop in Hc as [Hk' Hc]. apply negb_true_iff in Hk'.
    destruct v; try done. rewrite scrub_dict. simpl.
    rewrite lookup_key_scrub. destruct (lookup_key k' d) as [y|]; [|done].
    simpl. rewrite Hk'. by apply IH.
  - destruct v; try done. rewrite scrub_list. simpl.
    rewrite list_lookup_fmap. destruct (l !! i) as [y|]; [|done].
    simpl. by apply IH.
Qed.

(** Whatever the output holds under a sensitive key is the mask. *)
Lemma get_scrub_only_mask (p : list step) (k : string) (v x : json) :
  is_sensitive_key k = true →
  get (scrub v) (p ++ [Key k])%list = Some x → x = JStr MASK.
Proof.
  revert v. induction p as [|[k'|i] p IH]; intros v Hk Hg; simpl in *.
  - destruct v; try done. rewrite scrub_dict in Hg. simpl in Hg.
    rewrite lookup_key_scrub in Hg. destruct (lookup_key k d); [|done].
    simpl in Hg. rewrite Hk in Hg. by injection Hg as <-.
  - destruct v; try done. rewrite scrub_dict in Hg. simpl in Hg.
    rewrite lookup_key_scrub in Hg. destruct (lookup_key k' d) as [y|]; [|done].
    simpl in Hg. destruct (is_sensitive_key k').
    + destruct p as [|[?|?] ?]; simpl in Hg; done.
    + by eapply IH.
  - destruct v; try done. rewrite scrub_list in Hg. simpl in Hg.
    rewrite list_lookup_fmap in Hg. destruct (l !! i) as [y|]; [|done].
    simpl in Hg. by eapply IH.
Qed.

Lemma sanitize_body_object (loads : string → option json) (dumps : json → string)
    (body : string) (d : list (string * json)) :
  loads body = Some (JDict d) →
  _sanitize_body loads dumps (VStr body) = VStr (dumps (scrub (JDict d))).
Proof. intros Hparse. unfold _sanitize_body. by rewrite Hparse. Qed.



(** ** The body sanitizer *)

(** C2.  When the body parses as a JSON object, the sanitizer returns the
    serialization of the scrubbed object.  In it, every sensitive key that
    the input reaches through objects and array elements (with no sensitive
    key on the way, whose value would already be replaced as a whole) holds
    the mask; nothing but the mask stands under a sensitive key; and under
    the other keys the output has the input's objects with the same keys in
    the same order, arrays of the same length, and the same numbers,
    strings, booleans and nulls. *)
Theorem sanitize_body_masks_nested
    (loads : string → option json) (dumps : json → string)
    (body : string) (d : list (string * json))
    (Hparse : loads body = Some (JDict d)) :
  _sanitize_body loads dumps (VStr body) = VStr (dumps (scrub (JDict d))) ∧
  (∀ p k x, clean p = true → is_sensitive_key k = true →
            get (JDict d) (p ++ [Key k])%list = Some x →
            get (scrub (JDict d)) (p ++ [Key k])%list = Some (JStr "********")) ∧
  (∀ p k x, is_sensitive_key k = true →
            get (scrub (JDict d)) (p ++ [Key k])%list = Some x →
            x = JStr "********") ∧
  (∀ p x, clean p = true → get (JDict d) p = Some x →
          get (scrub (JDict d)) p = Some (scrub x) ∧
          match x with
          | JDict e => ∃ e', scrub x = JDict e' ∧ e'.*1 = e.*1
          | JList l => ∃ l', scrub x = JList l' ∧ length l' = length l
          | _ => scrub x = x
          end).
Proof.
  split; [by apply sanitize_body_object|].
  split; [intros p k x; apply get_scrub_masked|].
  split; [intros p k x; apply get_scrub_only_mask|].
  intros p x Hc Hg. split; [by apply get_scrub_clean|].
  destruct x as [ | | | | | l | e]; try done.
  - exists (scrub <$> l). split; [done|]. by rewrite length_fmap.
  - exists (scrub_entry <$> e). split; [done|]. apply scrub_entry_keys.
Qed.

Lemma sanitize_body_masks_nested_witness :
  _sanitize_body Json.loads Json.dumps
    (VStr (qq "{'user': 'a', 'credentials': {'Password': 'p', 'n': [1, {'TOKEN': [2]}]}}"))
  = VStr (qq "{'user': 'a', 'credentials': {'Password': '********', 'n': [1, {'TOKEN': '********'}]}}").
Proof.
  destruct (sanitize_body_masks_nested Json.loads Json.dumps
              (qq "{'user': 'a', 'credentials': {'Password': 'p', 'n': [1, {'TOKEN': [2]}]}}")
              [("user", JStr "a");
               ("credentials",
                JDict [("Password", JStr "p");
                       ("n", JList [JInt 1; JDict [("TOKEN", JList [JInt 2])]])])])
    as [Hrun _].
  - vm_compute. reflexivity.
  - rewrite Hrun. vm_compute. reflexivity.
Defined.






(** C5, as the code has it.  For a body that parses as JSON, sanitizing
    the sanitized body gives the sanitized body again, the serialization of
    the scrubbed value being a text that parses back to that value. *)
Theorem sanitize_body_idempotent_on_json
    (loads : string → option json) (dumps : json → string)
    (body : string) (v : json)
    (Hparse : loads body = Some v)
    (Hback : loads (dumps (scrub v)) = Some (scrub v)) :
  _sanitize_body loads dumps (_sanitize_body loads dumps (VStr body))
  = _sanitize_body loads dumps (VStr body).
Proof.
  destruct (is_dict v) eqn:Hv.
  - destruct v as [ | | | | | | d]; try done.
    rewrite (sanitize_body_object _ _ _ d) by done.
    rewrite scrub_dict in Hback |- *.
    rewrite (sanitize_body_object _ _ _ (scrub_entry <$> d)) by done.
    by rewrite <- !scrub_dict, scrub_idempotent.
  - unfold _sanitize_body at 2. rewrite Hparse.
    destruct v; try done; unfold _sanitize_body; by rewrite Hparse.
Qed.

Lemma sanitize_body_idempotent_on_json_witness :
  _sanitize_body Json.loads Json.dumps
    (_sanitize_body Json.loads Json.dumps (VStr (qq "{'a':{'token':'t'},'b':[1]}")))
  = _sanitize_body Json.loads Json.dumps (VStr (qq "{'a':{'token':'t'},'b':[1]}")).
Proof.
  apply (sanitize_body_idempotent_on_json Json.loads Json.dumps
           (qq "{'a':{'token':'t'},'b':[1]}")
           (JDict [("a", JDict [("token", JStr "t")]); ("b", JList [JInt 1])])).
  - vm_compute. reflexivity.
  - vm_compute. reflexivity.
Defined.

(** C5 fails as stated.  The text [{"password":"a\"}] is not JSON (its last
    string never ends); the first substitution turns it into
    [{"password":"********"}], which is a JSON object, and a second pass
    returns its serialization, with a space after the colon. *)
Lemma sanitize_body_idempotent_counterexample :
  Json.loads (qq "{'password':'a\'}") = None ∧
  _sanitize_body Json.loads Json.dumps (VStr (qq "{'password':'a\'}"))
    = VStr (qq "{'password':'********'}") ∧
  _sanitize_body Json.loads Json.dumps
    (_sanitize_body Json.loads Json.dumps (VStr (qq "{'password':'a\'}")))
    = VStr (qq "{'password': '********'}") ∧
  _sanitize_body Json.loads Json.dumps
    (_sanitize_body Json.loads Json.dumps (VStr (qq "{'password':'a\'}")))
    ≠ _sanitize_body Json.loads Json.dumps (VStr (qq "{'password':'a\'}")).
Proof.
  split; [vm_compute; reflexivity|].
  split; [vm_compute; reflexivity|].
  split; [vm_compute; reflexivity|].
  vm_compute. discriminate.
Qed.

(** ** Strings *)

Lemma str_app_assoc (a b c : string) : (a ++ b) ++ c = a ++ (b ++ c).
Proof. induction a as [|x a IH]; simpl; [done|by rewrite IH]. Qed.

Lemma str_app_nil_r (a : string) : a ++ "" = a.
Proof. induction a as [|x a IH]; simpl; [done|by rewrite IH]. Qed.

Lemma str_length_app (a b : string) :
  String.length (a ++ b) = String.length a + String.length b.
Proof. induction a as [|x a IH]; simpl; [done|by rewrite IH]. Qed.

Lemma str_take_drop (n : nat) (s : string) : Str.take n s ++ Str.drop n s = s.
Proof.
  revert s. induction n as [|n IH]; intros [|c s]; simpl; try done.
  by rewrite IH.
Qed.

Lemma str_drop_app (a b : string) : Str.drop (String.length a) (a ++ b) = b.
Proof. induction a as [|x a IH]; simpl; done. Qed.

Lemma str_drop_app_le (n : nat) (a b : string) :
  (n ≤ String.length a)%nat → Str.drop n (a ++ b) = Str.drop n a ++ b.
Proof.
  revert a. induction n as [|n IH]; intros [|x a] Hn; simpl in *; try done; try lia.
  apply IH. lia.
Qed.

Lemma str_drop_drop (n m : nat) (s : string) :
  Str.drop n (Str.drop m s) = Str.drop (m + n) s.
Proof.
  revert s. induction m as [|m IH]; intros s; simpl; [done|].
  destruct s as [|c s]; [by destruct n|]. apply IH.
Qed.

Lemma str_length_drop (n : nat) (s : string) :
  String.length (Str.drop n s) = String.length s - n.
Proof.
  revert s. induction n as [|n IH]; intros [|c s]; simpl; try done; try lia.
Qed.

Lemma is_prefix_app (p r : string) : Str.is_prefix p (p ++ r) = true.
Proof.
  induction p as [|c p IH]; simpl; [done|].
  by rewrite Ascii.eqb_refl, IH.
Qed.

Lemma is_prefix_inv (p s : string) :
  Str.is_prefix p s = true → ∃ r, s = p ++ r.
Proof.
  revert s. induction p as [|c p IH]; intros s Hp; simpl in *.
  - by exists s.
  - destruct s as [|d s]; [done|].
    apply andb_prop in Hp as [Hc Hp]. apply Ascii.eqb_eq in Hc as ->.
    destruct (IH _ Hp) as [r ->]. by exists r.
Qed.

Lemma contains_prefix (p s : string) :
  Str.is_prefix p s = true → Str.contains p s = true.
Proof. intros H. destruct s; simpl; by rewrite H. Qed.

Lemma contains_app (p l r : string) : Str.contains p (l ++ p ++ r) = true.
Proof.
  induction l as [|c l IH]; simpl.
  - apply contains_prefix, is_prefix_app.
  - rewrite IH. apply orb_true_r.
Qed.

Lemma contains_inv (p s : string) :
  Str.contains p s = true → ∃ l r, s = l ++ p ++ r.
Proof.
  induction s as [|c s IH]; simpl; intros H.
  - rewrite orb_false_r in H. apply is_prefix_inv in H as [r ->]. by exists "", r.
  - apply orb_prop in H as [H|H].
    + apply is_prefix_inv in H as [r ->]. by exists "", r.
    + destruct (IH H) as (l & r & ->). by exists (String c l), r.
Qed.

Lemma contains_app_l (p a b : string) :
  Str.contains p b = true → Str.contains p (a ++ b) = true.
Proof.
  intros H. apply contains_inv in H as (l & r & ->).
  rewrite <- str_app_assoc. apply contains_app.
Qed.


(** ** The matcher and the substitution *)

Lemma rmatch_lits (w : string) (r : Re.pattern) (s : string) (pos : nat) (marks : list nat) :
  Re.rmatch (Re.lits w ++ r)%list s pos marks =
  if ci_prefix w s
  then Re.rmatch r (Str.drop (String.length w) s) (pos + String.length w) marks
  else None.
Proof.
  revert s pos. induction w as [|a w IH]; intros s pos; simpl.
  - by rewrite Nat.add_0_r.
  - destruct s as [|b s]; [done|].
    destruct (Re.lit_eq a b); simpl; [|done].
    rewrite IH. by replace (S pos + String.length w) with (pos + S (String.length w)) by lia.
Qed.

Lemma rmatch_star_mark (p : ascii → bool) (s : string) (pos : nat) (marks : list nat) :
  Re.rmatch [Re.Star p; Re.Mark] s pos marks =
  Some (pos + run p s, (pos + run p s) :: marks).
Proof.
  revert pos. induction s as [|c s IH]; intros pos.
  - simpl. by rewrite Nat.add_0_r.
  - simpl in IH |- *. destruct (p c).
    + rewrite IH. by replace (S pos + run p s) with (pos + S (run p s)) by lia.
    + by rewrite Nat.add_0_r.
Qed.

Lemma rmatch_cls (p : ascii → bool) (r : Re.pattern) (c : ascii) (t : string)
    (pos : nat) (marks : list nat) :
  Re.rmatch (Re.Cls p :: r) (String c t) pos marks =
  if p c then Re.rmatch r t (S pos) marks else None.
Proof. reflexivity. Qed.

(** What [form_password] matches at the head of [s]: the word [password=]
    in any case, then the longest run (of one character at least) without
    [&] and without white space. *)
Lemma rmatch_form_password (s : string) :
  Re.rmatch Re.form_password s 0 [] =
  if ci_prefix "password=" s then
    match run Re.form_value_char (Str.drop 9 s) with
    | O => None
    | S k => Some (9 + S k, [9 + S k; 0])
    end
  else None.
Proof.
  unfold Re.form_password.
  change ([Re.Mark] ++ Re.lits "password=" ++
          [Re.Cls Re.form_value_char; Re.Star Re.form_value_char; Re.Mark])%list
    with (Re.Mark :: (Re.lits "password=" ++
          [Re.Cls Re.form_value_char; Re.Star Re.form_value_char; Re.Mark]))%list.
  cbn [Re.rmatch]. rewrite rmatch_lits.
  destruct (ci_prefix "password=" s); [|done].
  change (String.length "password=") with 9.
  destruct (Str.drop 9 s) as [|c t]; [done|].
  rewrite rmatch_cls. cbn [run]. destruct (Re.form_value_char c); [|done].
  rewrite rmatch_star_mark.
  by replace (S (0 + 9) + run Re.form_value_char t)
    with (9 + S (run Re.form_value_char t)) by lia.
Qed.

Lemma sub_from_drop (r : Re.pattern) (repl : string → list nat → string)
    (k : nat) (s : string) :
  Re.sub_from r repl k s = Re.sub_from r repl 0 (Str.drop k s).
Proof.
  revert s. induction k as [|k IH]; intros s; [done|].
  destruct s as [|c s]; [done|]. simpl. apply IH.
Qed.

Lemma sub_nil (r : Re.pattern) (repl : string → list nat → string) :
  Re.sub r repl "" = "".
Proof. reflexivity. Qed.

Lemma sub_cons (r : Re.pattern) (repl : string → list nat → string)
    (c : ascii) (s : string) :
  Re.sub r repl (String c s) =
  match Re.rmatch r (String c s) 0 [] with
  | Some (S n, marks) => repl (String c s) marks ++ Re.sub r repl (Str.drop n s)
  | _ => String c (Re.sub r repl s)
  end.
Proof.
  unfold Re.sub. cbn [Re.sub_from].
  destruct (Re.rmatch r (String c s) 0 []) as [[[|n] marks]|]; try done.
  by rewrite sub_from_drop.
Qed.

Lemma run_le (p : ascii → bool) (s : string) : run p s ≤ String.length s.
Proof. induction s as [|c s IH]; simpl; [lia|]. destruct (p c); lia. Qed.

Lemma run_app_full (p : ascii → bool) (a b : string) :
  run p a = String.length a → run p (a ++ b) = String.length a + run p b.
Proof.
  induction a as [|c a IH]; simpl; [done|].
  destruct (p c); [|done]. intros [= H]. by rewrite IH.
Qed.

Lemma run_app_stop (p : ascii → bool) (a b : string) :
  run p a < String.length a → run p (a ++ b) = run p a.
Proof.
  induction a as [|c a IH]; simpl; [lia|].
  destruct (p c); [|done]. intros H. rewrite IH; [done|lia].
Qed.

Lemma ci_prefix_app_short (w l x : string) :
  String.length l ≤ String.length w →
  ci_prefix w (l ++ x) = true →
  ci_prefix (Str.drop (String.length l) w) x = true.
Proof.
  revert w. induction l as [|c l IH]; intros w Hlen H; simpl in *; [done|].
  destruct w as [|a w]; simpl in *; [lia|].
  apply andb_prop in H as [_ H]. apply IH; [lia|done].
Qed.

Lemma sub_form_no_p (c : ascii) (s : string) :
  Re.lit_eq "p" c = false →
  sub_form_password (String c s) = String c (sub_form_password s).
Proof.
  intros Hc. unfold sub_form_password. rewrite sub_cons, rmatch_form_password.
  cbn [ci_prefix]. by rewrite Hc.
Qed.

Lemma rmatch_form_at (r : string) :
  Re.rmatch Re.form_password ("password=abc123&x=1" ++ r) 0 [] = Some (15, [15; 0]).
Proof. rewrite rmatch_form_password. reflexivity. Qed.

Lemma sub_form_at (r : string) :
  sub_form_password ("password=abc123&x=1" ++ r) = "password=********&x=1" ++ sub_form_password r.
Proof.
  unfold sub_form_password.
  change ("password=abc123&x=1" ++ r) with (String "p" ("assword=abc123&x=1" ++ r)) at 1.
  rewrite sub_cons.
  change (String "p" ("assword=abc123&x=1" ++ r)) with ("password=abc123&x=1" ++ r).
  rewrite rmatch_form_at.
  change (Str.drop 14 ("assword=abc123&x=1" ++ r)) with (String "&" (String "x" (String "=" (String "1" r)))).
  fold sub_form_password. rewrite !sub_form_no_p by reflexivity.
  reflexivity.
Qed.

Lemma ci_prefix_length (w s : string) :
  ci_prefix w s = true → String.length w ≤ String.length s.
Proof.
  revert s. induction w as [|a w IH]; intros [|b s] H; simpl in *; try done; try lia.
  apply andb_prop in H as [_ H]. apply IH in H. lia.
Qed.

Lemma contains_cons (p : string) (c : ascii) (s : string) :
  Str.contains p s = true → Str.contains p (String c s) = true.
Proof. intros H. simpl. rewrite H. apply orb_true_r. Qed.

Lemma ci_prefix_at_least (l r : string) :
  l ≠ "" → ci_prefix "password=" (l ++ "password=abc123&x=1" ++ r) = true →
  9 ≤ String.length l.
Proof.
  intros Hl H. destruct (decide (9 ≤ String.length l)) as [|Hshort]; [done|].
  exfalso. apply ci_prefix_app_short in H; [|simpl; lia].
  do 9 (destruct l as [|? l]; [try done; simpl in H; try discriminate H|]).
  simpl in Hshort. lia.
Qed.

Lemma sub_form_contains (n : nat) (l r : string) :
  String.length l ≤ n →
  Str.contains "password=********&x=1" (sub_form_password (l ++ "password=abc123&x=1" ++ r)) = true.
Proof.
  revert l. induction n as [|n IH]; intros l Hn.
  { destruct l; [|simpl in Hn; lia].
    change ("" ++ "password=abc123&x=1" ++ r) with ("password=abc123&x=1" ++ r).
    rewrite sub_form_at. apply contains_prefix, is_prefix_app. }
  destruct l as [|c l1] eqn:El.
  { change ("" ++ "password=abc123&x=1" ++ r) with ("password=abc123&x=1" ++ r).
    rewrite sub_form_at. apply contains_prefix, is_prefix_app. }
  rewrite <- El in *. assert (Hne : l ≠ "") by (by rewrite El).
  assert (Hstep : Str.contains "password=********&x=1"
            (String c (sub_form_password (l1 ++ "password=abc123&x=1" ++ r))) = true).
  { apply contains_cons, IH. rewrite El in Hn. simpl in Hn. lia. }
  assert (Hs : l ++ "password=abc123&x=1" ++ r = String c (l1 ++ "password=abc123&x=1" ++ r))
    by (by rewrite El).
  unfold sub_form_password at 1. rewrite Hs, sub_cons, <- Hs. fold sub_form_password.
  rewrite rmatch_form_password.
  destruct (ci_prefix "password=" (l ++ "password=abc123&x=1" ++ r)) eqn:Hci; [|done].
  pose proof (ci_prefix_at_least l r Hne Hci) as H9.
  rewrite (str_drop_app_le 9 l) by done.
  destruct (decide (run Re.form_value_char (Str.drop 9 l) = String.length (Str.drop 9 l)))
    as [Hfull|Hstop].
  - rewrite run_app_full by done.
    change (run Re.form_value_char ("password=abc123&x=1" ++ r)) with 15.
    rewrite str_length_drop.
    replace (String.length l - 9 + 15) with (S (String.length l + 5)) by lia.
    change (9 + S (String.length l + 5)) with (S (9 + (String.length l + 5))).
    cbv iota beta.
    replace (Str.drop (9 + (String.length l + 5)) (l1 ++ "password=abc123&x=1" ++ r))
      with (String "&" (String "x" (String "=" (String "1" r)))).
    + rewrite !sub_form_no_p by reflexivity. apply contains_prefix. reflexivity.
    + change (Str.drop (9 + (String.length l + 5)) (l1 ++ "password=abc123&x=1" ++ r))
        with (Str.drop (S (9 + (String.length l + 5))) (String c (l1 ++ "password=abc123&x=1" ++ r))).
      rewrite <- Hs.
      replace (S (9 + (String.length l + 5))) with (String.length l + 15) by lia.
      rewrite <- str_drop_drop, str_drop_app. reflexivity.
  - pose proof (run_le Re.form_value_char (Str.drop 9 l)) as Hle.
    rewrite run_app_stop by lia.
    destruct (run Re.form_value_char (Str.drop 9 l)) as [|k] eqn:Hk; [done|].
    change (9 + S k) with (S (9 + k)). cbv iota beta.
    apply contains_app_l.
    change (Str.drop (9 + k) (l1 ++ "password=abc123&x=1" ++ r))
      with (Str.drop (S (9 + k)) (String c (l1 ++ "password=abc123&x=1" ++ r))).
    rewrite <- Hs. rewrite str_length_drop in Hle, Hstop.
    rewrite str_drop_app_le by lia.
    apply IH. rewrite str_length_drop. lia.
Qed.

Lemma lit_eq_dquote (c : ascii) : Re.lit_eq Re.dquote c = true → c = Re.dquote.
Proof.
  destruct c as [[] [] [] [] [] [] [] []]; vm_compute; intros H;
    first [reflexivity | discriminate H].
Qed.

Lemma rmatch_json_password_head (c : ascii) (s : string) :
  Re.lit_eq Re.dquote c = false →
  Re.rmatch Re.json_password (String c s) 0 [] = None.
Proof.
  intros H. unfold Re.json_password.
  cbn [Re.rmatch app]. by rewrite H.
Qed.

(** A text without a double quote has no match of [json_password]. *)
Lemma sub_json_no_dquote (s : string) :
  Str.mem_char Re.dquote s = false → sub_json_password s = s.
Proof.
  unfold sub_json_password.
  induction s as [|c s IH]; intros H; [done|].
  cbn [Str.mem_char] in H. apply orb_false_elim in H as [Hc Hs].
  rewrite sub_cons, rmatch_json_password_head.
  - by rewrite IH.
  - destruct (Re.lit_eq Re.dquote c) eqn:E; [|done].
    apply lit_eq_dquote in E as ->. by rewrite Ascii.eqb_refl in Hc.
Qed.

(** C6, as the code has it.  When the body is not JSON, a substring
    [password=abc123&x=1] that is still there after the first substitution
    yields [password=********&x=1] in the result; this is so in particular
    for a body without any double quote, in which the first substitution
    finds nothing. *)
Theorem sanitize_body_masks_form_password
    (loads : string → option json) (dumps : json → string)
    (body : string) (Hfail : loads body = None) :
  ∃ out : string,
    _sanitize_body loads dumps (VStr body) = VStr out ∧
    (Str.contains "password=abc123&x=1" (sub_json_password body) = true →
     Str.contains "password=********&x=1" out = true) ∧
    (Str.mem_char Re.dquote body = false →
     Str.contains "password=abc123&x=1" body = true →
     Str.contains "password=********&x=1" out = true).
Proof.
  exists (regex_fallback body).
  assert (Hkeep : Str.contains "password=abc123&x=1" (sub_json_password body) = true →
                  Str.contains "password=********&x=1" (regex_fallback body) = true).
  { intros H. apply contains_inv in H as (l & r & E).
    unfold regex_fallback. rewrite E. by apply (sub_form_contains (String.length l)). }
  split; [|split].
  - unfold _sanitize_body. by rewrite Hfail.
  - exact Hkeep.
  - intros Hq Hin. apply Hkeep. by rewrite sub_json_no_dquote.
Qed.

Lemma sanitize_body_masks_form_password_witness :
  Json.loads "user=bob&password=abc123&x=1" = None ∧
  ∃ out : string,
    _sanitize_body Json.loads Json.dumps (VStr "user=bob&password=abc123&x=1") = VStr out ∧
    Str.contains "password=********&x=1" out = true.
Proof.
  split; [vm_compute; reflexivity|].
  destruct (sanitize_body_masks_form_password Json.loads Json.dumps
              "user=bob&password=abc123&x=1") as (out & Hrun & _ & Hin).
  - vm_compute. reflexivity.
  - exists out. split; [exact Hrun|].
    apply Hin; vm_compute; reflexivity.
Defined.

(** C6 fails as stated.  In the text ["password": "password=abc123&x=1"],
    which is not JSON, the first substitution replaces the whole quoted
    value, so that the result is ["password": "********"]. *)
Lemma sanitize_body_form_password_counterexample :
  Json.loads (qq "'password': 'password=abc123&x=1'") = None ∧
  Str.contains "password=abc123&x=1" (qq "'password': 'password=abc123&x=1'") = true ∧
  _sanitize_body Json.loads Json.dumps (VStr (qq "'password': 'password=abc123&x=1'"))
    = VStr (qq "'password': '********'") ∧
  Str.contains "password=********&x=1" (qq "'password': '********'") = false.
Proof. repeat split; vm_compute; reflexivity. Qed.

(** ** A substring of a concatenation *)

Lemma str_length_take (n : nat) (s : string) :
  n ≤ String.length s → String.length (Str.take n s) = n.
Proof.
  revert s. induction n as [|n IH]; intros [|c s] H; simpl in *; try done; try lia.
  rewrite IH; lia.
Qed.

Lemma is_suffix_refl (a : string) : Str.is_suffix a a = true.
Proof.
  unfold Str.is_suffix. rewrite Nat.leb_refl, Nat.sub_diag. simpl.
  apply String.eqb_refl.
Qed.

Lemma is_suffix_cons (q : string) (c : ascii) (a : string) :
  Str.is_suffix q a = true → Str.is_suffix q (String c a) = true.
Proof.
  unfold Str.is_suffix. intros H. apply andb_prop in H as [Hl He].
  apply Nat.leb_le in Hl. simpl String.length.
  replace (S (String.length a) - String.length q)
    with (S (String.length a - String.length q)) by lia.
  simpl Str.drop. rewrite He, andb_true_r. apply Nat.leb_le. lia.
Qed.

(** A prefix of [a ++ b] lies in [a], or it is [a] followed by a prefix
    of [b]. *)
Lemma is_prefix_app_split (p a b : string) :
  Str.is_prefix p (a ++ b) = true →
  Str.is_prefix p a = true ∨
  (String.length a < String.length p ∧ Str.take (String.length a) p = a ∧
   Str.is_prefix (Str.drop (String.length a) p) b = true).
Proof.
  revert p. induction a as [|c a IH]; intros p H.
  - destruct p as [|d p]; [by left|]. right. simpl. split; [lia|done].
  - destruct p as [|d p]; [by left|]. simpl in H.
    apply andb_prop in H as [Hc H]. apply Ascii.eqb_eq in Hc as ->.
    destruct (IH _ H) as [Hp|(Hl & Ht & Hd)].
    + left. simpl. by rewrite Ascii.eqb_refl.
    + right. simpl. rewrite Ht. split; [lia|done].
Qed.

Lemma contains_app_split (p a b : string) :
  Str.contains p (a ++ b) = true →
  Str.contains p a = true ∨ Str.contains p b = true ∨
  ∃ i, 0 < i < String.length p ∧
       Str.is_suffix (Str.take i p) a = true ∧
       Str.is_prefix (Str.drop i p) b = true.
Proof.
  induction a as [|c a IH]; intros H.
  - by right; left.
  - change (String c a ++ b) with (String c (a ++ b)) in H.
    cbn [Str.contains] in H. apply orb_prop in H as [H|H].
    + change (String c (a ++ b)) with (String c a ++ b) in H.
      apply is_prefix_app_split in H as [H|(Hl & Ht & Hd)].
      * left. by apply contains_prefix.
      * right; right. exists (String.length (String c a)).
        split; [simpl in *; lia|]. rewrite Ht. split; [apply is_suffix_refl|done].
    + destruct (IH H) as [Ha|[Hb|(i & Hi & Hs & Hp)]].
      * left. by apply contains_cons.
      * by right; left.
      * right; right. exists i. split; [done|]. split; [by apply is_suffix_cons|done].
Qed.

Lemma forallb_seq_overlap (f : nat → bool) (n i : nat) :
  forallb (λ j, negb (f j)) (seq 1 (n - 1)) = true → 0 < i < n → f i = false.
Proof.
  intros H Hi. rewrite forallb_forall in H.
  apply negb_true_iff, H, in_seq. lia.
Qed.

Lemma not_contains_app_l (p a b : string) :
  Str.contains p a = false → no_suffix_overlap p a = true →
  Str.contains p b = false → Str.contains p (a ++ b) = false.
Proof.
  intros Ha Ho Hb. destruct (Str.contains p (a ++ b)) eqn:H; [|done].
  apply contains_app_split in H as [H|[H|(i & Hi & Hs & _)]]; try congruence.
  by rewrite (forallb_seq_overlap (λ j, Str.is_suffix (Str.take j p) a) _ i Ho Hi) in Hs.
Qed.

Lemma not_contains_app_r (p a b : string) :
  Str.contains p a = false → no_prefix_overlap p b = true →
  Str.contains p b = false → Str.contains p (a ++ b) = false.
Proof.
  intros Ha Ho Hb. destruct (Str.contains p (a ++ b)) eqn:H; [|done].
  apply contains_app_split in H as [H|[H|(i & Hi & _ & Hp)]]; try congruence.
  by rewrite (forallb_seq_overlap (λ j, Str.is_prefix (Str.drop j p) b) _ i Ho Hi) in Hp.
Qed.

(** ** Rendering *)

Lemma details_response (loads : string → option json) (dumps : json → string)
    (self : JIRAError) (h : heap) (a : addr) (d : dict) (body : string)
    (o : list (string * json)) :
  request self = None →
  response self = Some {| ctx_headers := Some (ORef a); ctx_text := Some (VStr body) |} →
  h !! a = Some d → dict_wf d →
  loads body = Some (JDict o) →
  details loads dumps self h =
  ((h ++ [mask_header <$> d])%list,
   (Repr.nl ++ Repr.tab ++ "response headers = " ++ Repr.repr_dict (mask_header <$> d)) ++
   (Repr.nl ++ Repr.tab ++ "response text = " ++ dumps (scrub (JDict o)))).
Proof.
  intros Hreq Hresp Hd Hwf Hparse.
  unfold details, context_details. rewrite Hreq, Hresp. cbn [ctx_headers ctx_text].
  rewrite (sanitize_headers_ref h a d) by done.
  rewrite (sanitize_body_object loads dumps body o) by done.
  cbn [Repr.str_obj Repr.str_value]. rewrite list_lookup_middle by done.
  reflexivity.
Qed.


(** C7.  An error built with status 404, a URL, no message text, and a
    response whose headers are [{"Authorization": "Bearer xyz"}] and whose
    text is [{"password":"secret"}], rendered with log-to-file mode off
    ([json] decoding and encoding that text as it does): the string starts
    with [JiraError HTTP 404], contains the URL, the masked header and the
    masked field, and contains neither [Bearer xyz] nor [secret] (the URL
    holding none of them); the headers object of the response is left as it
    was. *)
Theorem render_masks_secrets
    (loads : string → option json) (dumps : json → string)
    (environ : gset string) (url : string) (h : heap) (a : addr) (st : os_state)
    (Hloads : loads (qq "{'password':'secret'}") = Some (JDict [("password", JStr "secret")]))
    (Hdumps : dumps (JDict [("password", JStr "********")]) = qq "{'password': '********'}")
    (Hh : h !! a = Some [("Authorization", VStr "Bearer xyz")])
    (Hmode : "PYJIRA_LOG_TO_TEMPFILE" ∉ environ)
    (Hurl1 : Str.contains "Bearer xyz" url = false)
    (Hurl2 : Str.contains "secret" url = false) :
  ∃ (h' : heap) (out : string),
    JIRAError_str loads dumps
      (JIRAError_init environ None (Some 404%Z) (Some url) None
         (Some {| ctx_headers := Some (ORef a);
                  ctx_text := Some (VStr (qq "{'password':'secret'}")) |}) [])
      h st = (h', st, Ok out) ∧
    h' !! a = Some [("Authorization", VStr "Bearer xyz")] ∧
    out = "JiraError HTTP 404" ++ match url with
                                  | "" => ""
                                  | _ => " url: " ++ url
                                  end ++ tail404 ∧
    Str.is_prefix "JiraError HTTP 404" out = true ∧
    Str.contains url out = true ∧
    Str.contains "response headers = {'Authorization': '********'}" out = true ∧
    Str.contains (qq "response text = {'password': '********'}") out = true ∧
    Str.contains "Bearer xyz" out = false ∧
    Str.contains "secret" out = false.
Proof.
  exists (h ++ [[("Authorization", VStr "********")]])%list.
  exists ("JiraError HTTP 404" ++ match url with
                                  | "" => ""
                                  | _ => " url: " ++ url
                                  end ++ tail404).
  split.
  { unfold JIRAError_str.
    erewrite details_response; [|reflexivity|reflexivity|exact Hh| |exact Hloads].
    - cbn [log_to_tempfile JIRAError_init]. rewrite bool_decide_eq_false_2 by done.
      cbn [text truthy]. rewrite scrub_dict.
      change (scrub_entry <$> [("password", JStr "secret")]) with [("password", JStr MASK)].
      change MASK with "********". rewrite Hdumps.
      destruct url; vm_compute; reflexivity.
    - apply (bool_decide_unpack _). vm_compute. reflexivity. }
  split; [by apply lookup_app_l_Some|].
  split; [done|].
  destruct url as [|c u].
  { repeat split; vm_compute; reflexivity. }
  set (url := String c u) in *.
  change ("JiraError HTTP 404" ++ " url: " ++ url ++ tail404)
    with ("JiraError HTTP 404 url: " ++ url ++ tail404).
  split; [reflexivity|].
  split; [exact (contains_app url "JiraError HTTP 404 url: " tail404)|].
  split.
  { apply (contains_app_l _ "JiraError HTTP 404 url: "), (contains_app_l _ url).
    vm_compute. reflexivity. }
  split.
  { apply (contains_app_l _ "JiraError HTTP 404 url: "), (contains_app_l _ url).
    vm_compute. reflexivity. }
  split.
  - apply (not_contains_app_l _ "JiraError HTTP 404 url: "); [vm_compute; reflexivity..|].
    apply (not_contains_app_r _ url); [done|vm_compute; reflexivity..].
  - apply (not_contains_app_l _ "JiraError HTTP 404 url: "); [vm_compute; reflexivity..|].
    apply (not_contains_app_r _ url); [done|vm_compute; reflexivity..].
Qed.

Lemma render_masks_secrets_witness :
  ∃ (h' : heap) (out : string),
    JIRAError_str Json.loads Json.dumps
      (JIRAError_init ∅ None (Some 404%Z) (Some "https://jira.example.com/rest/api/2/issue/X-1")
         None
         (Some {| ctx_headers := Some (ORef 0);
                  ctx_text := Some (VStr (qq "{'password':'secret'}")) |}) [])
      [[("Authorization", VStr "Bearer xyz")]]
      {| files := ∅; tmpdir := "/tmp"; tmp_writable := true; candidates := [] |}
    = (h', {| files := ∅; tmpdir := "/tmp"; tmp_writable := true; candidates := [] |}, Ok out) ∧
    out = "JiraError HTTP 404 url: https://jira.example.com/rest/api/2/issue/X-1" ++ tail404 ∧
    Str.contains "Bearer xyz" out = false ∧
    Str.contains "secret" out = false.
Proof.
  destruct (render_masks_secrets Json.loads Json.dumps ∅
              "https://jira.example.com/rest/api/2/issue/X-1"
              [[("Authorization", VStr "Bearer xyz")]] 0
              {| files := ∅; tmpdir := "/tmp"; tmp_writable := true; candidates := [] |})
    as (h' & out & Hrun & _ & Hout & _ & _ & _ & _ & Hb & Hs).
  - vm_compute. reflexivity.
  - vm_compute. reflexivity.
  - reflexivity.
  - apply not_elem_of_empty.
  - vm_compute. reflexivity.
  - vm_compute. reflexivity.
  - exists h', out. repeat split; assumption.
Defined.

Lemma mkstemp_inner_ok (fs : gmap string string) (dir pre suf : string)
    (names : list string) (attempts : nat) (file : string) (rest : list string) :
  mkstemp_inner fs dir pre suf names attempts = Some (file, rest) →
  ∃ name, name ∈ names ∧ file = dir ++ "/" ++ pre ++ name ++ suf ∧ fs !! file = None.
Proof.
  revert attempts.
  induction names as [|name names IH]; intros [|n] H; cbn [mkstemp_inner] in H; try done.
  destruct (fs !! (dir ++ "/" ++ pre ++ name ++ suf)) eqn:E.
  - destruct (IH _ H) as (x & Hx & Hf & Hnone). exists x. split; [by right|done].
  - injection H as <- <-. exists name. split; [by left|done].
Qed.

Lemma mkstemp_ok (suffix prefix : string) (st st1 : os_state) (file : string) :
  mkstemp suffix prefix st = (st1, Ok file) →
  (∃ name, name ∈ candidates st ∧ file = tmpdir st ++ "/" ++ prefix ++ name ++ suffix) ∧
  files st !! file = None ∧
  files st1 = <[file := ""]> (files st) ∧
  tmpdir st1 = tmpdir st.
Proof.
  unfold mkstemp. destruct (tmp_writable st); [|done].
  destruct (mkstemp_inner _ _ _ _ _ _) as [[f rest]|] eqn:E; [|done].
  intros [= <- <-]. apply mkstemp_inner_ok in E as (name & Hin & Hf & Hnone).
  split; [by exists name|]. done.
Qed.

Lemma render_inline (loads : string → option json) (dumps : json → string)
    (self : JIRAError) (h : heap) (st : os_state) :
  log_to_tempfile self = false →
  JIRAError_str loads dumps self h st =
  ((details loads dumps self h).1, st,
   Ok ((if truthy (text self)
        then summary self ++ Repr.nl ++ Repr.tab ++ "text: " ++ str_or_empty (text self)
        else summary self) ++ Repr.nl ++ Repr.tab ++ (details loads dumps self h).2)).
Proof.
  intros Hmode. unfold JIRAError_str. rewrite Hmode.
  by destruct (details loads dumps self h).
Qed.

Lemma render_tempfile (loads : string → option json) (dumps : json → string)
    (self : JIRAError) (h : heap) (st : os_state) :
  log_to_tempfile self = true →
  JIRAError_str loads dumps self h st =
  match mkstemp ".tmp" "jiraerror-" st with
  | (st1, Ok file_name) =>
      ((details loads dumps self h).1,
       write_file file_name (details loads dumps self h).2 st1,
       Ok (summary self ++ " details: " ++ file_name))
  | (st1, Raise e) => ((details loads dumps self h).1, st1, Raise e)
  end.
Proof.
  intros Hmode. unfold JIRAError_str. rewrite Hmode.
  destruct (details loads dumps self h) as [h' d].
  by destruct (mkstemp ".tmp" "jiraerror-" st) as [st1 [f|e]].
Qed.



(** *** Newlines *)


















(** * Further properties *)

(** ** Further properties of the header sanitizer *)

Lemma mask_header_idempotent (kv : string * value) :
  mask_header (mask_header kv) = mask_header kv.
Proof.
  destruct kv as [k v]. unfold mask_header. simpl.
  destruct (is_sensitive_header k) eqn:Hk; simpl; by rewrite Hk.
Qed.

Lemma mask_header_wf (d : dict) : dict_wf d → dict_wf (mask_header <$> d).
Proof. unfold dict_wf. by rewrite mask_header_keys. Qed.

(** X1.  Sanitizing the mapping that the header sanitizer returned gives
    a further new object with the same entries: masking is idempotent. *)
Theorem sanitize_headers_idempotent (h : heap) (a : addr) (d : dict)
    (Hd : h !! a = Some d) (Hwf : dict_wf d) :
  ∃ (h1 h2 : heap) (a1 a2 : addr) (d' : dict),
    _sanitize_headers h (ORef a) = (h1, ORef a1) ∧
    _sanitize_headers h1 (ORef a1) = (h2, ORef a2) ∧
    a1 ≠ a2 ∧
    h2 !! a1 = Some d' ∧
    h2 !! a2 = Some d'.
Proof.
  exists (h ++ [mask_header <$> d])%list,
         ((h ++ [mask_header <$> d]) ++ [mask_header <$> d])%list,
         (length h), (length (h ++ [mask_header <$> d])%list), (mask_header <$> d).
  split; [by apply sanitize_headers_ref|].
  split.
  { rewrite (sanitize_headers_ref _ (length h) (mask_header <$> d)).
    - assert (Hidem : mask_header <$> (mask_header <$> d) = mask_header <$> d).
      { rewrite <- list_fmap_compose. apply Forall_fmap_ext_1, Forall_forall.
        intros x _. apply mask_header_idempotent. }
      by rewrite Hidem.
    - by apply list_lookup_middle.
    - by apply mask_header_wf. }
  split; [rewrite length_app; simpl; lia|].
  split.
  - apply lookup_app_l_Some. by apply list_lookup_middle.
  - by apply list_lookup_middle.
Qed.

Lemma sanitize_headers_idempotent_witness :
  ∃ (h1 h2 : heap) (a1 a2 : addr),
    _sanitize_headers [[("Cookie", VStr "sid=1"); ("Accept", VStr "*/*")]] (ORef 0)
      = (h1, ORef a1) ∧
    _sanitize_headers h1 (ORef a1) = (h2, ORef a2) ∧
    h2 !! a1 = Some [("Cookie", VStr "********"); ("Accept", VStr "*/*")] ∧
    h2 !! a2 = Some [("Cookie", VStr "********"); ("Accept", VStr "*/*")].
Proof.
  destruct (sanitize_headers_idempotent
              [[("Cookie", VStr "sid=1"); ("Accept", VStr "*/*")]] 0
              [("Cookie", VStr "sid=1"); ("Accept", VStr "*/*")])
    as (h1 & h2 & a1 & a2 & d' & H1 & H2 & _ & Hd1 & Hd2).
  - reflexivity.
  - apply (bool_decide_unpack _). vm_compute. reflexivity.
  - exists h1, h2, a1, a2. split; [exact H1|]. split; [exact H2|].
    vm_compute in H1. injection H1 as <- <-.
    vm_compute in H2. injection H2 as <- <-.
    split; reflexivity.
Defined.

(** X2.  A mapping none of whose keys is a sensitive header name is copied
    entry for entry: the result is another object with equal contents. *)
Theorem sanitize_headers_no_sensitive (h : heap) (a : addr) (d : dict)
    (Hd : h !! a = Some d) (Hwf : dict_wf d)
    (Hnone : Forall (λ kv, is_sensitive_header kv.1 = false) d) :
  ∃ (h' : heap) (a' : addr),
    _sanitize_headers h (ORef a) = (h', ORef a') ∧
    a' ≠ a ∧ h' !! a' = Some d ∧ h' !! a = Some d.
Proof.
  exists (h ++ [d])%list, (length h).
  assert (Hid : mask_header <$> d = d).
  { clear Hd Hwf. induction Hnone as [|[k v] d Hk _ IH]; [done|].
    rewrite fmap_cons, IH. f_equal. unfold mask_header. simpl in *. by rewrite Hk. }
  split; [by rewrite (sanitize_headers_ref h a d), Hid|].
  apply lookup_lt_Some in Hd as Hlt.
  split; [lia|]. split; [by apply list_lookup_middle|by apply lookup_app_l_Some].
Qed.

Lemma sanitize_headers_no_sensitive_witness :
  ∃ (h' : heap) (a' : addr),
    _sanitize_headers [[("Accept", VStr "*/*"); ("X-Request-Id", VStr "42")]] (ORef 0)
      = (h', ORef a') ∧
    a' ≠ 0 ∧
    h' !! a' = Some [("Accept", VStr "*/*"); ("X-Request-Id", VStr "42")].
Proof.
  destruct (sanitize_headers_no_sensitive
              [[("Accept", VStr "*/*"); ("X-Request-Id", VStr "42")]] 0
              [("Accept", VStr "*/*"); ("X-Request-Id", VStr "42")])
    as (h' & a' & Hrun & Hne & Hnew & _).
  - reflexivity.
  - apply (bool_decide_unpack _). vm_compute. reflexivity.
  - repeat constructor.
  - by exists h', a'.
Defined.

(** ** Further properties of the scrub *)

(** X3.  Scrubbing is idempotent on every JSON value. *)
Theorem scrub_twice (v : json) : scrub (scrub v) = scrub v.
Proof. apply scrub_idempotent. Qed.

Lemma scrub_no_sensitive (v : json) : has_sensitive v = false → scrub v = v.
Proof.
  induction v as [ | | | | | l IH | d IH] using json_nested_ind; try done.
  - intros H. rewrite scrub_list. f_equal.
    simpl in H. induction IH as [|x l Hx _ IHl]; [done|].
    simpl in H. apply orb_false_elim in H as [H1 H2].
    rewrite fmap_cons, Hx, IHl; done.
  - intros H. rewrite scrub_dict. f_equal.
    simpl in H. induction IH as [|[k x] d Hx _ IHd]; [done|].
    simpl in H. apply orb_false_elim in H as [H1 H2].
    apply orb_false_elim in H1 as [Hk Hs].
    rewrite fmap_cons, IHd by done. simpl in *. by rewrite Hk, Hx.
Qed.

(** X4.  A body that parses as a JSON object with no sensitive key at any
    depth comes back as the serialization of the parsed object itself:
    nothing is masked (the regular expressions are not applied to a body
    that parsed, whatever its strings hold), yet the text is the
    re-serialized one. *)
Theorem sanitize_body_no_sensitive
    (loads : string → option json) (dumps : json → string)
    (body : string) (d : list (string * json))
    (Hparse : loads body = Some (JDict d))
    (Hnone : has_sensitive (JDict d) = false) :
  scrub (JDict d) = JDict d ∧
  _sanitize_body loads dumps (VStr body) = VStr (dumps (JDict d)).
Proof.
  split; [by apply scrub_no_sensitive|].
  by rewrite (sanitize_body_object loads dumps body d), scrub_no_sensitive.
Qed.

Lemma sanitize_body_no_sensitive_witness :
  _sanitize_body Json.loads Json.dumps (VStr (qq "{'a':1,'note':['password=abc123',{'c':null}]}"))
  = VStr (qq "{'a': 1, 'note': ['password=abc123', {'c': null}]}").
Proof.
  destruct (sanitize_body_no_sensitive Json.loads Json.dumps
              (qq "{'a':1,'note':['password=abc123',{'c':null}]}")
              [("a", JInt 1); ("note", JList [JStr "password=abc123"; JDict [("c", JNull)]])])
    as [_ Hrun].
  - vm_compute. reflexivity.
  - vm_compute. reflexivity.
  - rewrite Hrun. vm_compute. reflexivity.
Defined.

(** ** [NotJIRAInstanceError] *)


(** ** Further properties of the regular-expression fallback *)

Lemma ci_prefix_app_l (w w' s : string) :
  ci_prefix (w ++ w') s = true → ci_prefix w s = true.
Proof.
  revert s. induction w as [|a w IH]; intros s H; [done|].
  destruct s as [|b s]; [done|]. simpl in *.
  apply andb_prop in H as [Hab H]. by rewrite Hab, (IH _ H).
Qed.

Lemma ci_prefix_app_r (w key x : string) :
  ci_prefix w key = true → ci_prefix w (key ++ x) = true.
Proof.
  revert key. induction w as [|a w IH]; intros key H; [done|].
  destruct key as [|b key]; [done|]. simpl in *.
  apply andb_prop in H as [Hab H]. by rewrite Hab, (IH _ H).
Qed.

Lemma rmatch_json_password_cons (c : ascii) (s : string) :
  ci_prefix "password" s = false →
  Re.rmatch Re.json_password (String c s) 0 [] = None.
Proof.
  intros H. unfold Re.json_password.
  change ([Re.Mark; Re.Lit Re.dquote] ++ Re.lits "password" ++ ?r)%list
    with (Re.Mark :: Re.Lit Re.dquote :: (Re.lits "password" ++ r))%list.
  cbn [Re.rmatch]. destruct (Re.lit_eq Re.dquote c); [|done].
  by rewrite rmatch_lits, H.
Qed.

Lemma sub_json_no_password (s : string) :
  ci_contains "password" s = false → sub_json_password s = s.
Proof.
  unfold sub_json_password. induction s as [|c s IH]; intros H; [done|].
  cbn [ci_contains] in H. apply orb_false_elim in H as [_ H].
  rewrite sub_cons, rmatch_json_password_cons.
  - by rewrite IH.
  - destruct s; cbn [ci_contains] in H; by apply orb_false_elim in H as [H _].
Qed.

Lemma sub_form_no_password (s : string) :
  ci_contains "password" s = false → sub_form_password s = s.
Proof.
  unfold sub_form_password. induction s as [|c s IH]; intros H; [done|].
  cbn [ci_contains] in H. apply orb_false_elim in H as [Hp H].
  rewrite sub_cons, rmatch_form_password.
  destruct (ci_prefix "password=" (String c s)) eqn:E.
  - apply (ci_prefix_app_l "password" "=") in E. congruence.
  - by rewrite IH.
Qed.

(** X6.  A body that is not JSON and in which the word [password] does not
    occur, in any case, is returned as it is; so is the empty body, and so
    are texts whose only secrets are named [token], [secret] or
    [access_token]. *)
Theorem sanitize_body_fallback_unchanged
    (loads : string → option json) (dumps : json → string) (body : string)
    (Hfail : loads body = None)
    (Hnone : ci_contains "password" body = false) :
  _sanitize_body loads dumps (VStr body) = VStr body.
Proof.
  unfold _sanitize_body, regex_fallback. rewrite Hfail.
  by rewrite sub_json_no_password, sub_form_no_password.
Qed.

Lemma sanitize_body_fallback_unchanged_witness :
  _sanitize_body Json.loads Json.dumps (VStr "token=abc123&secret=xyz&access_token=t")
    = VStr "token=abc123&secret=xyz&access_token=t" ∧
  _sanitize_body Json.loads Json.dumps (VStr "") = VStr "".
Proof.
  split.
  - apply (sanitize_body_fallback_unchanged Json.loads Json.dumps
             "token=abc123&secret=xyz&access_token=t"); vm_compute; reflexivity.
  - apply (sanitize_body_fallback_unchanged Json.loads Json.dumps "");
      vm_compute; reflexivity.
Defined.

Lemma run_all_chars (p : ascii → bool) (s : string) :
  all_chars p s = true → run p s = String.length s.
Proof.
  induction s as [|c s IH]; [done|]. simpl. destruct (p c); [|done].
  intros H. by rewrite IH.
Qed.

Lemma run_starts_outside (p : ascii → bool) (s : string) :
  starts_outside p s = true → run p s = 0.
Proof. destruct s as [|c s]; [done|]. simpl. by destruct (p c). Qed.

Lemma str_drop_app_ge (a b : string) (n : nat) :
  Str.drop (String.length a + n) (a ++ b) = Str.drop n b.
Proof. induction a as [|x a IH]; simpl; done. Qed.

(** X7.  Where the text has [password=] in any case, followed by a run of
    one character or more without [&] and white space that ends the text or
    stops at such a character, the second substitution puts
    [password=********] for the key and the run: the value is masked whole
    and the key comes out in lower case. *)
Theorem sub_form_password_masks (key v rest : string)
    (Hlen : String.length key = 9)
    (Hkey : ci_prefix "password=" key = true)
    (Hv : v ≠ "")
    (Hrun : all_chars Re.form_value_char v = true)
    (Hstop : starts_outside Re.form_value_char rest = true) :
  sub_form_password (key ++ v ++ rest) = "password=********" ++ sub_form_password rest.
Proof.
  destruct key as [|c key]; [done|].
  unfold sub_form_password.
  change (String c key ++ v ++ rest) with (String c (key ++ v ++ rest)).
  rewrite sub_cons.
  change (String c (key ++ v ++ rest)) with (String c key ++ v ++ rest).
  rewrite rmatch_form_password, (ci_prefix_app_r _ _ _ Hkey).
  rewrite <- Hlen at 1. rewrite str_drop_app.
  rewrite run_app_full, run_starts_outside, Nat.add_0_r by (done || by apply run_all_chars).
  destruct v as [|d v]; [done|]. cbn [String.length].
  change (9 + S (String.length v)) with (S (9 + String.length v)). cbv iota beta.
  change (Str.drop (9 + String.length v) (key ++ String d v ++ rest))
    with (Str.drop (S (9 + String.length v)) (String c key ++ String d v ++ rest)).
  replace (S (9 + String.length v)) with (String.length (String c key) + S (String.length v))
    by (rewrite Hlen; lia).
  rewrite str_drop_app_ge.
  change (S (String.length v)) with (String.length (String d v)).
  by rewrite str_drop_app.
Qed.

Lemma sub_form_password_masks_witness :
  sub_form_password ("PassWord=" ++ "hunter2" ++ " next")
  = "password=********" ++ sub_form_password " next".
Proof.
  apply sub_form_password_masks.
  - reflexivity.
  - vm_compute. reflexivity.
  - discriminate.
  - vm_compute. reflexivity.
  - vm_compute. reflexivity.
Defined.

Lemma rmatch_lit (c : ascii) (r : Re.pattern) (d : ascii) (s : string)
    (pos : nat) (marks : list nat) :
  Re.rmatch (Re.Lit c :: r) (String d s) pos marks =
  if Re.lit_eq c d then Re.rmatch r s (S pos) marks else None.
Proof. reflexivity. Qed.

Lemma rmatch_mark (r : Re.pattern) (s : string) (pos : nat) (marks : list nat) :
  Re.rmatch (Re.Mark :: r) s pos marks = Re.rmatch r s pos (pos :: marks).
Proof. reflexivity. Qed.

Lemma rmatch_star_cons (p : ascii → bool) (r : Re.pattern) (c : ascii) (s : string)
    (pos : nat) (marks : list nat) :
  Re.rmatch (Re.Star p :: r) (String c s) pos marks =
  if p c then
    match Re.rmatch (Re.Star p :: r) s (S pos) marks with
    | Some m => Some m
    | None => Re.rmatch r (String c s) pos marks
    end
  else Re.rmatch r (String c s) pos marks.
Proof. reflexivity. Qed.

(** A greedy star over a run that stops at [b] hands over to the rest of
    the pattern at [b], when the rest matches there. *)
Lemma rmatch_star_stop (p : ascii → bool) (r : Re.pattern) (a b : string)
    (pos : nat) (marks : list nat) (m : nat * list nat) :
  all_chars p a = true → starts_outside p b = true →
  Re.rmatch r b (pos + String.length a) marks = Some m →
  Re.rmatch (Re.Star p :: r) (a ++ b) pos marks = Some m.
Proof.
  revert pos. induction a as [|c a IH]; intros pos Ha Hb Hm.
  - simpl in Hm. rewrite Nat.add_0_r in Hm.
    change ("" ++ b) with b. destruct b as [|d b]; [exact Hm|].
    rewrite rmatch_star_cons. simpl in Hb. apply negb_true_iff in Hb. by rewrite Hb.
  - change (String c a ++ b) with (String c (a ++ b)).
    rewrite rmatch_star_cons. simpl in Ha. apply andb_prop in Ha as [Hc Ha].
    rewrite Hc, (IH (S pos)); [done..|].
    simpl in Hm. by replace (S pos + String.length a) with (pos + S (String.length a)) by lia.
Qed.

Lemma json_key_app (name ws1 ws2 x : string) :
  json_key name ws1 ws2 ++ x =
  String Re.dquote
    (name ++ String Re.dquote (ws1 ++ String ":"%char (ws2 ++ String Re.dquote x))).
Proof.
  unfold json_key. simpl. f_equal.
  rewrite str_app_assoc. simpl. do 2 f_equal.
  rewrite str_app_assoc. simpl. do 2 f_equal.
  by rewrite str_app_assoc.
Qed.

Lemma json_key_length (name ws1 ws2 : string) :
  String.length (json_key name ws1 ws2) =
  String.length name + String.length ws1 + String.length ws2 + 4.
Proof.
  unfold json_key. simpl. rewrite !str_length_app. simpl.
  rewrite !str_length_app. simpl. rewrite !str_length_app. simpl. lia.
Qed.

Lemma rmatch_json_password_value (name ws1 ws2 v rest : string) :
  String.length name = 8 → ci_prefix "password" name = true →
  all_chars Str.is_space ws1 = true → all_chars Str.is_space ws2 = true →
  v ≠ "" → all_chars Re.not_dquote v = true →
  let e1 := String.length (json_key name ws1 ws2) in
  let b2 := e1 + String.length v in
  Re.rmatch Re.json_password (json_key name ws1 ws2 ++ v ++ String Re.dquote rest) 0 [] =
  Some (S b2, [S b2; b2; e1; 0]).
Proof.
  intros Hlen Hname Hws1 Hws2 Hv Hnq e1 b2.
  assert (He1 : e1 = 12 + String.length ws1 + String.length ws2).
  { unfold e1. rewrite json_key_length, Hlen. lia. }
  rewrite json_key_app. unfold Re.json_password.
  change ([Re.Mark; Re.Lit Re.dquote] ++ Re.lits "password" ++ ?r)%list
    with (Re.Mark :: Re.Lit Re.dquote :: (Re.lits "password" ++ r))%list.
  rewrite rmatch_mark, rmatch_lit.
  change (Re.lit_eq Re.dquote Re.dquote) with true. cbv iota.
  rewrite rmatch_lits, (ci_prefix_app_r _ _ _ Hname).
  change (String.length "password") with 8.
  rewrite <- Hlen at 1. rewrite str_drop_app.
  rewrite rmatch_lit. change (Re.lit_eq Re.dquote Re.dquote) with true. cbv iota.
  apply rmatch_star_stop; [done|reflexivity|].
  rewrite rmatch_lit. change (Re.lit_eq ":" ":") with true. cbv iota.
  apply rmatch_star_stop; [done|reflexivity|].
  rewrite rmatch_lit. change (Re.lit_eq Re.dquote Re.dquote) with true. cbv iota.
  rewrite rmatch_mark.
  destruct v as [|c v]; [done|].
  simpl in Hnq. apply andb_prop in Hnq as [Hc Hnq].
  change (String c v ++ String Re.dquote rest) with (String c (v ++ String Re.dquote rest)).
  rewrite rmatch_cls, Hc.
  apply rmatch_star_stop; [done|reflexivity|].
  rewrite rmatch_mark, rmatch_lit.
  change (Re.lit_eq Re.dquote Re.dquote) with true. cbv iota.
  rewrite rmatch_mark. cbn [Re.rmatch].
  unfold b2. rewrite He1. cbn [String.length].
  do 2 f_equal; [lia|]. repeat (f_equal; try lia).
Qed.

Lemma str_take_app (a b : string) : Str.take (String.length a) (a ++ b) = a.
Proof. induction a as [|x a IH]; simpl; [by destruct b|by rewrite IH]. Qed.

(** X8.  Where the text has the quoted name [password] in any case, white
    space or none around the colon, and a quoted value of one character or
    more up to the next double quote, the first substitution puts the mask
    for the value and keeps the name and the spacing as written. *)
Theorem sub_json_password_masks (name ws1 ws2 v rest : string)
    (Hlen : String.length name = 8)
    (Hname : ci_prefix "password" name = true)
    (Hws1 : all_chars Str.is_space ws1 = true)
    (Hws2 : all_chars Str.is_space ws2 = true)
    (Hv : v ≠ "")
    (Hnq : all_chars Re.not_dquote v = true) :
  sub_json_password (json_key name ws1 ws2 ++ v ++ String Re.dquote rest) =
  json_key name ws1 ws2 ++ "********" ++ String Re.dquote (sub_json_password rest).
Proof.
  pose proof (rmatch_json_password_value name ws1 ws2 v rest
                Hlen Hname Hws1 Hws2 Hv Hnq) as Hm.
  cbv zeta in Hm.
  set (jk := json_key name ws1 ws2) in *.
  set (e1 := String.length jk) in *.
  set (s := jk ++ v ++ String Re.dquote rest) in *.
  assert (Hs : ∃ t, s = String Re.dquote t).
  { unfold s, jk. rewrite json_key_app. eauto. }
  destruct Hs as [t Hs].
  assert (Hdrop : ∀ n, Str.drop n t = Str.drop (S n) s) by (by rewrite Hs).
  unfold sub_json_password. rewrite Hs, sub_cons, <- Hs, Hm. cbv iota beta.
  rewrite Hdrop.
  assert (Hrest : Str.drop (e1 + String.length v) s = String Re.dquote rest).
  { unfold s, e1. by rewrite str_drop_app_ge, str_drop_app. }
  assert (Hg1 : Re.group s [S (e1 + String.length v); e1 + String.length v; e1; 0] 1 = jk).
  { unfold Re.group. cbn [rev app nth Nat.mul Nat.add Nat.sub].
    rewrite Nat.sub_0_r. cbn [Str.drop]. apply str_take_app. }
  assert (Hg2 : Re.group s [S (e1 + String.length v); e1 + String.length v; e1; 0] 2
                = String Re.dquote "").
  { unfold Re.group. cbn [rev app nth Nat.mul Nat.add Nat.sub].
    replace (S (e1 + String.length v) - (e1 + String.length v)) with 1 by lia.
    by rewrite Hrest. }
  unfold Re.json_password_repl. rewrite Hg1, Hg2.
  replace (Str.drop (S (e1 + String.length v)) s) with rest.
  - rewrite !str_app_assoc. reflexivity.
  - replace (S (e1 + String.length v)) with ((e1 + String.length v) + 1) by lia.
    by rewrite <- str_drop_drop, Hrest.
Qed.

Lemma sub_json_password_masks_witness :
  sub_json_password (json_key "PassWord" " " "  " ++ "hunter2" ++ String Re.dquote ", x")
  = json_key "PassWord" " " "  " ++ "********" ++ String Re.dquote ", x".
Proof.
  rewrite (sub_json_password_masks "PassWord" " " "  " "hunter2" ", x").
  - vm_compute. reflexivity.
  - reflexivity.
  - vm_compute. reflexivity.
  - vm_compute. reflexivity.
  - vm_compute. reflexivity.
  - discriminate.
  - vm_compute. reflexivity.
Defined.

(** ** Further properties of the rendering *)

(** The object the header sanitizer builds depends on the entries of the
    mapping only, and it is added at the end of the heap. *)
Lemma sanitize_headers_alloc (h : heap) (a : addr) (items : dict) :
  h !! a = Some items →
  _sanitize_headers h (ORef a) =
  ((h ++ [foldl mask_step (dict_of_items items) (dict_of_items items).*1])%list,
   ORef (length h)).
Proof.
  intros Hd. unfold _sanitize_headers, heap_alloc. rewrite Hd.
  rewrite (mask_loop_heap _ _ _ (dict_of_items items))
    by apply list_lookup_middle, eq_refl.
  f_equal. replace (length h) with (length h + 0) at 1 by lia.
  by rewrite insert_app_r.
Qed.

Lemma sanitize_headers_extends (h : heap) (o : pyobj) :
  ∃ ext : heap, (_sanitize_headers h o).1 = (h ++ ext)%list.
Proof.
  destruct o as [a|v]; [|exists []; by rewrite app_nil_r].
  destruct (h !! a) as [items|] eqn:Hd.
  - rewrite (sanitize_headers_alloc h a items Hd). eauto.
  - unfold _sanitize_headers. rewrite Hd. exists []. by rewrite app_nil_r.
Qed.

Lemma context_details_extends (loads : string → option json) (dumps : json → string)
    (label : string) (ctx : option context) (h : heap) :
  ∃ ext : heap, (context_details loads dumps label ctx h).1 = (h ++ ext)%list.
Proof.
  unfold context_details. destruct ctx as [c|]; [|exists []; by rewrite app_nil_r].
  destruct (ctx_headers c) as [hd|]; [|exists []; by rewrite app_nil_r].
  destruct (sanitize_headers_extends h hd) as [ext Hext].
  destruct (_sanitize_headers h hd) as [h' o]. by exists ext.
Qed.

Lemma context_details_stable (loads : string → option json) (dumps : json → string)
    (label : string) (ctx : option context) (h ext : heap) :
  ctx_allocated h ctx →
  (context_details loads dumps label ctx (h ++ ext)%list).2 =
  (context_details loads dumps label ctx h).2.
Proof.
  unfold context_details, ctx_allocated. destruct ctx as [[hd tx]|]; [|done].
  cbn [ctx_headers ctx_text]. destruct hd as [[a|v]|]; [|done..].
  intros Ha. destruct (lookup_lt_is_Some_2 h a Ha) as [items Hd].
  rewrite (sanitize_headers_alloc (h ++ ext) a items) by by apply lookup_app_l_Some.
  rewrite (sanitize_headers_alloc h a items Hd).
  cbn [snd Repr.str_obj]. by rewrite !list_lookup_middle.
Qed.

Lemma ctx_allocated_extends (h ext : heap) (ctx : option context) :
  ctx_allocated h ctx → ctx_allocated (h ++ ext)%list ctx.
Proof.
  unfold ctx_allocated. destruct ctx as [[[[a|v]|] tx]|]; try done.
  rewrite length_app. lia.
Qed.

Lemma details_extends (loads : string → option json) (dumps : json → string)
    (self : JIRAError) (h : heap) :
  ∃ ext : heap, (details loads dumps self h).1 = (h ++ ext)%list.
Proof.
  unfold details.
  destruct (context_details_extends loads dumps "request" (request self) h) as [e1 H1].
  destruct (context_details loads dumps "request" (request self) h) as [h1 d1].
  destruct (context_details_extends loads dumps "response" (response self) h1) as [e2 H2].
  destruct (context_details loads dumps "response" (response self) h1) as [h2 d2].
  simpl in *. subst. exists (e1 ++ e2)%list. by rewrite app_assoc.
Qed.

Lemma details_stable (loads : string → option json) (dumps : json → string)
    (self : JIRAError) (h ext : heap) :
  allocated h self →
  (details loads dumps self (h ++ ext)%list).2 = (details loads dumps self h).2.
Proof.
  intros [Hreq Hresp]. unfold details.
  pose proof (context_details_stable loads dumps "request" (request self) h ext Hreq) as S1.
  destruct (context_details_extends loads dumps "request" (request self) h) as [e1 H1].
  destruct (context_details_extends loads dumps "request" (request self) (h ++ ext)%list)
    as [e1' H1'].
  destruct (context_details loads dumps "request" (request self) h) as [h1 d1].
  destruct (context_details loads dumps "request" (request self) (h ++ ext)%list)
    as [h1' d1'].
  simpl in *. subst.
  pose proof (context_details_stable loads dumps "response" (response self) h
                (ext ++ e1') Hresp) as S2.
  pose proof (context_details_stable loads dumps "response" (response self) h
                e1 Hresp) as S3.
  rewrite app_assoc in S2.
  destruct (context_details loads dumps "response" (response self) ((h ++ ext) ++ e1')%list)
    as [h2' d2'].
  destruct (context_details loads dumps "response" (response self) (h ++ e1)%list)
    as [h2 d2].
  simpl in *. by subst.
Qed.

Lemma render_heap (loads : string → option json) (dumps : json → string)
    (self : JIRAError) (h : heap) (st : os_state) :
  (JIRAError_str loads dumps self h st).1.1 = (details loads dumps self h).1.
Proof.
  unfold JIRAError_str. destruct (details loads dumps self h) as [h' d].
  destruct (log_to_tempfile self); [|done].
  by destruct (mkstemp ".tmp" "jiraerror-" st) as [st1 [f|e]].
Qed.

(** X9.  Rendering changes no object that was in the heap: in either mode,
    and also when it raises, the heap afterwards is the heap before with
    new objects added at the end; so the headers of the request and of the
    response are never modified by it. *)
Theorem render_preserves_heap
    (loads : string → option json) (dumps : json → string)
    (self : JIRAError) (h : heap) (st : os_state) :
  ∃ ext : heap,
    (JIRAError_str loads dumps self h st).1.1 = (h ++ ext)%list ∧
    ∀ (a : addr) (d : dict),
      h !! a = Some d → (JIRAError_str loads dumps self h st).1.1 !! a = Some d.
Proof.
  destruct (details_extends loads dumps self h) as [ext Hext].
  exists ext. rewrite render_heap, Hext. split; [done|].
  intros a d Hd. by apply lookup_app_l_Some.
Qed.


Lemma str_app_inv_head (a b c : string) : a ++ b = a ++ c → b = c.
Proof. induction a as [|x a IH]; simpl; [done|]. intros [= H]. by apply IH. Qed.

(** X11.  With log-to-file mode active, every rendering writes a file of
    its own: two renderings in a row that both return give two different
    paths, hence two different strings, and afterwards both files hold the
    same details block. *)
Theorem render_tempfile_twice
    (loads : string → option json) (dumps : json → string)
    (self : JIRAError) (h h1 h2 : heap) (st st1 st2 : os_state) (out1 out2 : string)
    (Hmode : log_to_tempfile self = true)
    (Halloc : allocated h self)
    (Hfirst : JIRAError_str loads dumps self h st = (h1, st1, Ok out1))
    (Hsecond : JIRAError_str loads dumps self h1 st1 = (h2, st2, Ok out2)) :
  ∃ (f1 f2 block : string),
    out1 = summary self ++ " details: " ++ f1 ∧
    out2 = summary self ++ " details: " ++ f2 ∧
    f1 ≠ f2 ∧ out1 ≠ out2 ∧
    files st !! f1 = None ∧
    files st2 !! f1 = Some block ∧
    files st2 !! f2 = Some block.
Proof.
  rewrite render_tempfile in Hfirst, Hsecond by done.
  destruct (mkstemp ".tmp" "jiraerror-" st) as [sa [f1|e]] eqn:M1; [|done].
  destruct (mkstemp ".tmp" "jiraerror-" st1) as [sb [f2|e]] eqn:M2; [|done].
  injection Hfirst as Hh1 Hst1 Hout1. injection Hsecond as Hh2 Hst2 Hout2.
  apply mkstemp_ok in M1 as (_ & Hnew1 & Hfiles1 & _).
  apply mkstemp_ok in M2 as (_ & Hnew2 & Hfiles2 & _).
  destruct (details_extends loads dumps self h) as [ext Hext].
  assert (Hblock : (details loads dumps self h1).2 = (details loads dumps self h).2).
  { rewrite <- Hh1, Hext. by apply details_stable. }
  assert (Hf1 : files st1 !! f1 = Some (details loads dumps self h).2).
  { rewrite <- Hst1. simpl. apply lookup_insert_eq. }
  assert (Hne : f1 ≠ f2) by (intros ->; congruence).
  exists f1, f2, (details loads dumps self h).2.
  split; [done|]. split; [done|]. split; [done|].
  split.
  { rewrite <- Hout1, <- Hout2. intros E.
    apply str_app_inv_head in E. apply (str_app_inv_head " details: ") in E. done. }
  split; [done|].
  rewrite <- Hst2. simpl. rewrite Hfiles2, Hblock. split.
  - rewrite !lookup_insert_ne by done. exact Hf1.
  - apply lookup_insert_eq.
Qed.


Lemma render_tempfile_twice_witness :
  ∃ (f1 f2 block : string) (st2 : os_state),
    f1 = "/tmp/jiraerror-def.tmp" ∧ f2 = "/tmp/jiraerror-ghi.tmp" ∧
    files st2 !! f1 = Some block ∧ files st2 !! f2 = Some block.
Proof.
  pose (r1 := JIRAError_str Json.loads Json.dumps (Example.error0 Example.log_env None)
                Example.heap0 os_three_names).
  pose (r2 := JIRAError_str Json.loads Json.dumps (Example.error0 Example.log_env None)
                r1.1.1 r1.1.2).
  destruct (render_tempfile_twice Json.loads Json.dumps
              (Example.error0 Example.log_env None)
              Example.heap0 r1.1.1 r2.1.1 os_three_names r1.1.2 r2.1.2
              "JiraError HTTP 404 url: https://jira.example.com/rest details: /tmp/jiraerror-def.tmp"
              "JiraError HTTP 404 url: https://jira.example.com/rest details: /tmp/jiraerror-ghi.tmp")
    as (f1 & f2 & block & Ho1 & Ho2 & _ & _ & _ & Hb1 & Hb2).
  - vm_compute. reflexivity.
  - split; simpl; lia.
  - vm_compute. reflexivity.
  - vm_compute. reflexivity.
  - exists f1, f2, block, r2.1.2.
    change (summary (Example.error0 Example.log_env None) ++ " details: " ++ f1)
      with ("JiraError HTTP 404 url: https://jira.example.com/rest details: " ++ f1) in Ho1.
    change (summary (Example.error0 Example.log_env None) ++ " details: " ++ f2)
      with ("JiraError HTTP 404 url: https://jira.example.com/rest details: " ++ f2) in Ho2.
    apply (str_app_inv_head "JiraError HTTP 404 url: https://jira.example.com/rest details: "
             "/tmp/jiraerror-def.tmp" f1) in Ho1.
    apply (str_app_inv_head "JiraError HTTP 404 url: https://jira.example.com/rest details: "
             "/tmp/jiraerror-ghi.tmp" f2) in Ho2.
    by subst.
Defined.






(** X14.  When neither the request nor the response, if there at all, has
    headers or text, the details block is empty: inline, the string still
    ends with a line break and a tab after the summary (and the text line);
    in log-to-file mode an empty file is created all the same. *)
Theorem render_without_details
    (loads : string → option json) (dumps : json → string)
    (self : JIRAError) (h : heap) (st : os_state)
    (Hreq : ∀ c, request self = Some c → ctx_headers c = None ∧ ctx_text c = None)
    (Hresp : ∀ c, response self = Some c → ctx_headers c = None ∧ ctx_text c = None) :
  (log_to_tempfile self = false →
   JIRAError_str loads dumps self h st =
   (h, st, Ok ((if truthy (text self)
                then summary self ++ Repr.nl ++ Repr.tab ++ "text: " ++ str_or_empty (text self)
                else summary self) ++ Repr.nl ++ Repr.tab))) ∧
  (log_to_tempfile self = true →
   ∀ st1 file_name, mkstemp ".tmp" "jiraerror-" st = (st1, Ok file_name) →
     ∃ st', JIRAError_str loads dumps self h st =
              (h, st', Ok (summary self ++ " details: " ++ file_name)) ∧
            files st !! file_name = None ∧
            files st' !! file_name = Some "").
Proof.
  assert (Hd : details loads dumps self h = (h, "")).
  { unfold details, context_details.
    destruct (request self) as [c|].
    - destruct (Hreq c eq_refl) as [-> ->].
      destruct (response self) as [c'|]; [|done].
      by destruct (Hresp c' eq_refl) as [-> ->].
    - destruct (response self) as [c'|]; [|done].
      by destruct (Hresp c' eq_refl) as [-> ->]. }
  split.
  - intros Hmode. rewrite render_inline, Hd by done. cbn [fst snd].
    by rewrite str_app_nil_r.
  - intros Hmode st1 f Htmp. rewrite render_tempfile, Htmp, Hd by done.
    apply mkstemp_ok in Htmp as (_ & Hnew & _ & _).
    eexists. split; [reflexivity|]. split; [done|]. simpl. apply lookup_insert_eq.
Qed.

Lemma render_without_details_witness :
  JIRAError_str Json.loads Json.dumps (Example.error_bare ∅) [] Example.os0 =
    ([], Example.os0, Ok ("JiraError HTTP None" ++ Repr.nl ++ Repr.tab)) ∧
  ∃ st', JIRAError_str Json.loads Json.dumps (Example.error_bare Example.log_env) []
           Example.os0 =
           ([], st', Ok "JiraError HTTP None details: /tmp/jiraerror-def.tmp") ∧
         files st' !! "/tmp/jiraerror-def.tmp" = Some "".
Proof.
  split.
  - apply (render_without_details Json.loads Json.dumps (Example.error_bare ∅) []
             Example.os0).
    + intros c [= <-]. done.
    + intros c [= <-]. done.
    + vm_compute. reflexivity.
  - destruct (render_without_details Json.loads Json.dumps
                (Example.error_bare Example.log_env) [] Example.os0) as [_ Hlog].
    + intros c [= <-]. done.
    + intros c [= <-]. done.
    + destruct (Hlog eq_refl (mkstemp ".tmp" "jiraerror-" Example.os0).1
                  "/tmp/jiraerror-def.tmp") as (st' & Hrun & _ & Hfile).
      * vm_compute. reflexivity.
      * exists st'. split; [exact Hrun|exact Hfile].
Defined.







